(** * cfn-stack: create, update, observe and delete one CloudFormation stack

    A shallow embedding of the [Stack] class of [src/index.ts] (AWS SDK v3)
    and of its predecessor (AWS SDK v2), with the remote CloudFormation
    service replaced by a scripted gateway: every gateway operation owns a
    queue of replies, a call takes the next reply of its queue, and a call on
    an empty queue never settles.  Every side effect of the class (gateway
    calls, [sleep], console output) is recorded in a call trace. *)

From Stdlib Require Import ZArith List Bool Ascii String Sorted.
From stdpp Require Import base option gmap strings list.
Import ListNotations.

Local Open Scope string_scope.
Local Open Scope Z_scope.
Local Open Scope list_scope.

(** ** JavaScript primitives used by the class *)

Module Js.

(** [s.includes(sub)] *)
Fixpoint includes (sub s : string) : bool :=
  String.prefix sub s ||
  match s with
  | EmptyString => false
  | String _ s' => includes sub s'
  end.

(** [s.substring(a, b)] for non-negative indices: the two indices are
    swapped when [a > b]; indices past the end are clamped. *)
Definition substring (a b : nat) (s : string) : string :=
  String.substring (Nat.min a b) (Nat.max a b - Nat.min a b) s.

(** [s.substr(a, n)] for a non-negative start. *)
Definition substr (a n : nat) (s : string) : string :=
  String.substring a n s.

(** One alternative [alt] of a regular expression [(alt|...)$] tried at
    index [i] of [s]: the literal matches there and the match ends the
    input. *)
Definition alt_at (s : string) (i : nat) (alt : string) : bool :=
  String.eqb (String.substring i (String.length alt) s) alt
  && Nat.eqb (i + String.length alt) (String.length s).

(** [s.match(/(alt1|...|altn)$/)] is not null: the search tries every
    start index from the left, the alternatives in order. *)
Definition match_alts_at_end (alts : list string) (s : string) : bool :=
  existsb (fun i => existsb (alt_at s i) alts) (seq 0 (S (String.length s))).

(** The double quote and the line feed, as one-character strings. *)
Definition dquote : string := String "034"%char EmptyString.
Definition newline : string := String "010"%char EmptyString.

(** [obj[k] = v] for a plain object [obj] (created by [{}]) and a string
    [v]: an own property is written, except under the key [__proto__],
    which reaches the setter of [Object.prototype]; that setter ignores a
    value that is neither an object nor null, so nothing is stored. *)
Definition set_property (k v : string) (obj : gmap string string) : gmap string string :=
  if String.eqb k "__proto__" then obj else <[k:=v]> obj.

(** [x || ''] for an optional string. *)
Definition or_empty (x : option string) : string := default EmptyString x.

(** Truthiness of an optional string: [undefined] and [''] are falsy. *)
Definition truthy (x : option string) : bool :=
  match x with
  | Some s => negb (String.eqb s EmptyString)
  | None => false
  end.

(** [a >= b] where [a] is an optional [Date] and [b] a [Date], both as
    milliseconds since the epoch; [undefined >= b] is false. *)
Definition date_ge (a : option Z) (b : Z) : bool :=
  match a with
  | Some t => b <=? t
  | None => false
  end.

(** [xs.join(sep)] *)
Fixpoint join (sep : string) (xs : list string) : string :=
  match xs with
  | [] => EmptyString
  | [x] => x
  | x :: rest => x +:+ sep +:+ join sep rest
  end.

(** ['c'.repeat(n)] *)
Fixpoint repeat (c : string) (n : nat) : string :=
  match n with
  | O => EmptyString
  | S n' => c +:+ repeat c n'
  end.

End Js.

(** ** Data model of the CloudFormation client *)

Record StackEvent := {
  Timestamp : option Z;
  EventId : option string;
  ResourceType : option string;
  LogicalResourceId : option string;
  ResourceStatus : option string;
  ResourceStatusReason : option string
}.

Record Output := {
  OutputKey : option string;
  OutputValue : option string
}.

(** The SDK's [Stack] shape, as far as the class reads it. *)
Record CfnStack := {
  StackId : option string;
  Outputs : option (list Output)
}.

Record DescribeStacksOutput := { Stacks : option (list CfnStack) }.

Record DescribeStackEventsOutput := { StackEvents : option (list StackEvent) }.

Record CfnParameter := {
  ParameterKey : string;
  ParameterValue : option string;
  UsePreviousValue : bool
}.

Record UpdateStackInput := {
  StackName : string;
  Capabilities : list string;
  TemplateBody : string;
  InputParameters : list CfnParameter
}.

(** A thrown value: a service exception carries a classification code,
    [Error(msg)] carries none. *)
Record Error := {
  Code : option string;
  message : string
}.

Definition mkError (msg : string) : Error := {| Code := None; message := msg |}.

(** ** The scripted gateway and the call trace *)

Inductive Reply (A : Type) :=
| Resolve (a : A)
| Reject (e : Error).
Arguments Resolve {A} a.
Arguments Reject {A} e.

Inductive Call :=
| CallUpdateStack (input : UpdateStackInput)
| CallCreateStack (onFailure : string) (input : UpdateStackInput)
| CallDeleteStack (name : string)
| CallDescribeStacks (name : string)
| CallDescribeStackEvents (stackId : option string)
| CallSleep (ms : nat)
| CallLogStackAction (date : Z) (msg : string)
| CallLogEvent (e : StackEvent)
| CallConsoleLog (line : string).

Record World := {
  updateStack_q : list (Reply unit);
  createStack_q : list (Reply unit);
  deleteStack_q : list (Reply unit);
  describeStacks_q : list (Reply DescribeStacksOutput);
  describeStackEvents_q : list (Reply DescribeStackEventsOutput);
  calls : list Call
}.

Definition record (c : list Call) (w : World) : World :=
  {| updateStack_q := updateStack_q w; createStack_q := createStack_q w;
     deleteStack_q := deleteStack_q w; describeStacks_q := describeStacks_q w;
     describeStackEvents_q := describeStackEvents_q w;
     calls := calls w ++ c |}.

Definition set_updateStack_q (q : list (Reply unit)) (w : World) : World :=
  {| updateStack_q := q; createStack_q := createStack_q w;
     deleteStack_q := deleteStack_q w; describeStacks_q := describeStacks_q w;
     describeStackEvents_q := describeStackEvents_q w; calls := calls w |}.

Definition set_createStack_q (q : list (Reply unit)) (w : World) : World :=
  {| updateStack_q := updateStack_q w; createStack_q := q;
     deleteStack_q := deleteStack_q w; describeStacks_q := describeStacks_q w;
     describeStackEvents_q := describeStackEvents_q w; calls := calls w |}.

Definition set_deleteStack_q (q : list (Reply unit)) (w : World) : World :=
  {| updateStack_q := updateStack_q w; createStack_q := createStack_q w;
     deleteStack_q := q; describeStacks_q := describeStacks_q w;
     describeStackEvents_q := describeStackEvents_q w; calls := calls w |}.

Definition set_describeStacks_q (q : list (Reply DescribeStacksOutput)) (w : World) : World :=
  {| updateStack_q := updateStack_q w; createStack_q := createStack_q w;
     deleteStack_q := deleteStack_q w; describeStacks_q := q;
     describeStackEvents_q := describeStackEvents_q w; calls := calls w |}.

Definition set_describeStackEvents_q (q : list (Reply DescribeStackEventsOutput))
    (tr : list Call) (w : World) : World :=
  {| updateStack_q := updateStack_q w; createStack_q := createStack_q w;
     deleteStack_q := deleteStack_q w; describeStacks_q := describeStacks_q w;
     describeStackEvents_q := q; calls := tr |}.

(** The result of awaiting a promise: it resolves, it rejects, or it never
    settles (the script has no reply left). *)
Inductive Outcome (A : Type) :=
| Ret (a : A)
| Throw (e : Error)
| Hang.
Arguments Ret {A} a.
Arguments Throw {A} e.
Arguments Hang {A}.

Definition M (A : Type) : Type := World → Outcome A * World.

#[global] Instance M_ret : MRet M := λ A a w, (Ret a, w).

#[global] Instance M_bind : MBind M := λ A B f m w,
  match m w with
  | (Ret a, w') => f a w'
  | (Throw e, w') => (Throw e, w')
  | (Hang, w') => (Hang, w')
  end.

Definition throw {A} (e : Error) : M A := λ w, (Throw e, w).

(** [try { body } catch (err) { handler(err) }] *)
Definition try_catch {A} (body : M A) (handler : Error → M A) : M A := λ w,
  match body w with
  | (Throw e, w') => handler e w'
  | r => r
  end.

Definition emit (c : Call) : M unit := λ w, (Ret tt, record [c] w).

(** A gateway operation: record the call, then settle with the next reply
    of the operation's queue. *)
Definition gateway {A} (c : Call) (get : World → list (Reply A))
    (set : list (Reply A) → World → World) : M A := λ w,
  let w' := record [c] w in
  match get w with
  | [] => (Hang, w')
  | Resolve a :: q => (Ret a, set q w')
  | Reject e :: q => (Throw e, set q w')
  end.

Definition updateStack (input : UpdateStackInput) : M unit :=
  gateway (CallUpdateStack input) updateStack_q set_updateStack_q.

Definition createStack (onFailure : string) (input : UpdateStackInput) : M unit :=
  gateway (CallCreateStack onFailure input) createStack_q set_createStack_q.

Definition deleteStack (name : string) : M unit :=
  gateway (CallDeleteStack name) deleteStack_q set_deleteStack_q.

Definition describeStacks (name : string) : M DescribeStacksOutput :=
  gateway (CallDescribeStacks name) describeStacks_q set_describeStacks_q.

(** The two variables of [waitFor] that its loop mutates: the set [shown]
    of event identifiers already printed and the tracked [status]. *)
Record LoopVars := {
  shown : gset (option string);
  status : string
}.

(** ** The class of [src/index.ts] (AWS SDK v3) *)

Module SdkV3.

Definition stackDoesNotExist (err : Error) : bool :=
  bool_decide (Code err = Some "ValidationError")
  && Js.includes "does not exist" (message err).

Definition stackIsUpToDate (err : Error) : bool :=
  bool_decide (Code err = Some "ValidationError")
  && Js.includes "No updates are to be performed" (message err).

(** The alternatives of the regular expression [finished]. *)
Definition finished_alternatives : list string :=
  [ "CREATE_COMPLETE"; "UPDATE_COMPLETE"; "DELETE_COMPLETE";
    "ROLLBACK_COMPLETE"; "ROLLBACK_FAILED"; "CREATE_FAILED";
    "DELETE_FAILED" ].

(** [status.match(finished)] is not null. *)
Definition finished (status : string) : bool :=
  Js.match_alts_at_end finished_alternatives status.

(** The predicate given to [events.filter]. *)
Definition is_new (start : Z) (shown : gset (option string)) (e : StackEvent) : bool :=
  Js.date_ge (Timestamp e) start && negb (bool_decide (EventId e ∈ shown)).

(** The callback given to [forEach]. *)
Definition on_event (acc : LoopVars * list Call) (e : StackEvent) : LoopVars * list Call :=
  let '(vars, tr) := acc in
  ({| shown := {[EventId e]} ∪ shown vars;
      status := if bool_decide (ResourceType e = Some "AWS::CloudFormation::Stack")
                then Js.or_empty (ResourceStatus e)
                else status vars |},
   tr ++ [CallLogEvent e]).

(** [events.filter(...).reverse()]: the events one iteration prints, in
    printing order. *)
Definition new_events (start : Z) (shown : gset (option string))
    (events : list StackEvent) : list StackEvent :=
  rev (List.filter (is_new start shown) events).

(** [events.filter(...).reverse().forEach(...)] *)
Definition process_events (start : Z) (events : list StackEvent)
    (vars : LoopVars) (tr : list Call) : LoopVars * list Call :=
  fold_left on_event (new_events start (shown vars) events) (vars, tr).

(** The [while] loop of [waitFor], by recursion on the replies the gateway
    still has for [describeStackEvents]. *)
Fixpoint poll_loop (q : list (Reply DescribeStackEventsOutput))
    (stackId : option string) (start : Z) (vars : LoopVars) (tr : list Call)
    : Outcome LoopVars * list (Reply DescribeStackEventsOutput) * list Call :=
  if finished (status vars) then (Ret vars, q, tr)
  else
    let tr1 := tr ++ [CallSleep 1500; CallDescribeStackEvents stackId] in
    match q with
    | [] => (Hang, [], tr1)
    | Reject err :: q' => (Throw err, q', tr1)
    | Resolve response :: q' =>
        let events := default [] (StackEvents response) in
        let '(vars', tr2) := process_events start events vars tr1 in
        poll_loop q' stackId start vars' tr2
    end.

Definition while_not_finished (stackId : option string) (start : Z)
    (vars : LoopVars) : M LoopVars := λ w,
  let '(r, q, tr) := poll_loop (describeStackEvents_q w) stackId start vars (calls w) in
  (r, set_describeStackEvents_q q tr w).

Definition getStackId (name : string) : M (option string) :=
  response ← describeStacks name;
  match Stacks response with
  | Some [s] => mret (StackId s)
  | _ => throw (mkError ("No StackId for stack " +:+ Js.dquote +:+ name +:+ " found"))
  end.

Definition waitFor (name : string) (success : string) (start : Z) : M unit :=
  stackId ← getStackId name;
  vars ← while_not_finished stackId start {| shown := ∅; status := EmptyString |};
  _ ← emit (CallConsoleLog (Js.repeat "=" 8));
  if bool_decide (status vars ≠ success)
  then throw (mkError ("Unexpected Stack Status " +:+ status vars))
  else mret tt.

(** [Object.entries(params).map(...)], [params] given by its entries. *)
Definition stackInput (name template : string)
    (params : list (string * option string)) : UpdateStackInput :=
  {| StackName := name;
     Capabilities := ["CAPABILITY_IAM"; "CAPABILITY_NAMED_IAM"];
     TemplateBody := template;
     InputParameters :=
       map (λ kv, {| ParameterKey := fst kv;
                     ParameterValue := snd kv;
                     UsePreviousValue := bool_decide (snd kv = None) |}) params |}.

(** [createOrUpdate(template, params)]; [now] is the value of [new Date()]. *)
Definition createOrUpdate (name template : string)
    (params : list (string * option string)) (now : Z) : M unit :=
  let input := stackInput name template params in
  try_catch
    (_ ← updateStack input;
     _ ← emit (CallLogStackAction now "Updating stack");
     waitFor name "UPDATE_COMPLETE" now)
    (λ err,
       if stackDoesNotExist err then
         _ ← createStack "DELETE" input;
         _ ← emit (CallLogStackAction now "Creating new stack");
         waitFor name "CREATE_COMPLETE" now
       else if stackIsUpToDate err then
         emit (CallLogStackAction now "No updates needed for stack")
       else throw err).

(** The callback of [Outputs.forEach] in [getOutputs]; [outputs] is a plain
    object used as a map, given by its own properties. *)
Definition add_output (outputs : gmap string string) (o : Output) : gmap string string :=
  if Js.truthy (OutputKey o) && Js.truthy (OutputValue o)
  then match OutputKey o, OutputValue o with
       | Some k, Some v => Js.set_property k v outputs
       | _, _ => outputs
       end
  else outputs.

Definition getOutputs (name : string) : M (gmap string string) :=
  response ← describeStacks name;
  mret match Stacks response with
       | Some [s] =>
           match Outputs s with
           | Some os => fold_left add_output os ∅
           | None => ∅
           end
       | _ => ∅
       end.

(** [delete()]; [now] is the value of [new Date()]. *)
Definition delete_ (name : string) (now : Z) : M unit :=
  _ ← deleteStack name;
  _ ← emit (CallLogStackAction now "Deleting stack");
  waitFor name "DELETE_COMPLETE" now.

(** What the console shows.  [Date.prototype.toISOString] and the
    [word-wrap] package are not part of the repository. *)
Section Console.
Variable toISOString : Z → string.
Variable wrap : string → nat → string → string.

Definition fmtTime (date : Z) : string := Js.substring 11 19 (toISOString date).

Definition fmtReason (reason : option string) : string :=
  if Js.truthy reason
  then Js.newline +:+ wrap (Js.or_empty reason) 90 (Js.repeat " " 9)
  else EmptyString.

(** The line [logEvent(e)] prints; [None] when [e.Timestamp] is
    undefined, where [fmtTime] throws. *)
Definition logEvent (e : StackEvent) : option string :=
  t ← Timestamp e;
  Some (Js.join " "
          (map Js.or_empty
             [ Some (fmtTime t);
               ResourceStatus e;
               ResourceType e;
               Some (Js.dquote +:+ default "undefined" (LogicalResourceId e) +:+ Js.dquote);
               Some (fmtReason (ResourceStatusReason e)) ])).

Definition logStackAction (name : string) (date : Z) (msg : string) : string :=
  Js.newline +:+ fmtTime date +:+ " " +:+ msg +:+ " " +:+ Js.dquote +:+ name
  +:+ Js.dquote +:+ Js.newline +:+ Js.repeat "=" 8.

(** The text a recorded call writes to the console. *)
Definition console_of (name : string) (c : Call) : option string :=
  match c with
  | CallLogStackAction date msg => Some (logStackAction name date msg)
  | CallLogEvent e => logEvent e
  | CallConsoleLog line => Some line
  | _ => None
  end.
End Console.

End SdkV3.

(** ** The class of the AWS SDK v2 based version *)

Module SdkV2.

(** The alternatives of the regular expression [finished]. *)
Definition finished_alternatives : list string :=
  [ "CREATE_COMPLETE"; "UPDATE_COMPLETE"; "DELETE_COMPLETE";
    "ROLLBACK_COMPLETE"; "ROLLBACK_FAILED"; "CREATE_FAILED";
    "DELETE_FAILED" ].

Definition finished (status : string) : bool :=
  Js.match_alts_at_end finished_alternatives status.

Definition is_new (start : Z) (shown : gset (option string)) (e : StackEvent) : bool :=
  Js.date_ge (Timestamp e) start && negb (bool_decide (EventId e ∈ shown)).

Definition on_event (acc : LoopVars * list Call) (e : StackEvent) : LoopVars * list Call :=
  let '(vars, tr) := acc in
  ({| shown := {[EventId e]} ∪ shown vars;
      status := if bool_decide (ResourceType e = Some "AWS::CloudFormation::Stack")
                then Js.or_empty (ResourceStatus e)
                else status vars |},
   tr ++ [CallLogEvent e]).

Definition new_events (start : Z) (shown : gset (option string))
    (events : list StackEvent) : list StackEvent :=
  rev (List.filter (is_new start shown) events).

Definition process_events (start : Z) (events : list StackEvent)
    (vars : LoopVars) (tr : list Call) : LoopVars * list Call :=
  fold_left on_event (new_events start (shown vars) events) (vars, tr).

Fixpoint poll_loop (q : list (Reply DescribeStackEventsOutput))
    (stackId : option string) (start : Z) (vars : LoopVars) (tr : list Call)
    : Outcome LoopVars * list (Reply DescribeStackEventsOutput) * list Call :=
  if finished (status vars) then (Ret vars, q, tr)
  else
    let tr1 := tr ++ [CallSleep 1500; CallDescribeStackEvents stackId] in
    match q with
    | [] => (Hang, [], tr1)
    | Reject err :: q' => (Throw err, q', tr1)
    | Resolve response :: q' =>
        let events := default [] (StackEvents response) in
        let '(vars', tr2) := process_events start events vars tr1 in
        poll_loop q' stackId start vars' tr2
    end.

Definition while_not_finished (stackId : option string) (start : Z)
    (vars : LoopVars) : M LoopVars := λ w,
  let '(r, q, tr) := poll_loop (describeStackEvents_q w) stackId start vars (calls w) in
  (r, set_describeStackEvents_q q tr w).

Definition getStackId (name : string) : M (option string) :=
  response ← describeStacks name;
  match Stacks response with
  | Some [s] => mret (StackId s)
  | _ => throw (mkError ("No StackId for stack " +:+ Js.dquote +:+ name +:+ " found"))
  end.

Definition waitFor (name : string) (success : string) (start : Z) : M unit :=
  stackId ← getStackId name;
  vars ← while_not_finished stackId start {| shown := ∅; status := EmptyString |};
  _ ← emit (CallConsoleLog (Js.repeat "=" 8));
  if bool_decide (status vars ≠ success)
  then throw (mkError ("Unexpected Stack Status " +:+ status vars))
  else mret tt.

Definition add_output (outputs : gmap string string) (o : Output) : gmap string string :=
  if Js.truthy (OutputKey o) && Js.truthy (OutputValue o)
  then match OutputKey o, OutputValue o with
       | Some k, Some v => Js.set_property k v outputs
       | _, _ => outputs
       end
  else outputs.

Definition getOutputs (name : string) : M (gmap string string) :=
  response ← describeStacks name;
  mret match Stacks response with
       | Some [s] =>
           match Outputs s with
           | Some os => fold_left add_output os ∅
           | None => ∅
           end
       | _ => ∅
       end.

(** [Stack.doesNotExist] and [Stack.isUpToDate]; the classification code is
    the field [code] of the SDK v2 error. *)
Definition doesNotExist (err : Error) : bool :=
  bool_decide (Code err = Some "ValidationError")
  && Js.includes "does not exist" (message err).

Definition isUpToDate (err : Error) : bool :=
  bool_decide (Code err = Some "ValidationError")
  && Js.includes "No updates are to be performed" (message err).

Definition stackInput (name template : string)
    (params : list (string * option string)) : UpdateStackInput :=
  {| StackName := name;
     Capabilities := ["CAPABILITY_IAM"; "CAPABILITY_NAMED_IAM"];
     TemplateBody := template;
     InputParameters :=
       map (λ kv, {| ParameterKey := fst kv;
                     ParameterValue := snd kv;
                     UsePreviousValue := bool_decide (snd kv = None) |}) params |}.

Definition createOrUpdate (name template : string)
    (params : list (string * option string)) (now : Z) : M unit :=
  let input := stackInput name template params in
  try_catch
    (_ ← updateStack input;
     _ ← emit (CallLogStackAction now "Updating stack");
     waitFor name "UPDATE_COMPLETE" now)
    (λ err,
       if doesNotExist err then
         _ ← createStack "DELETE" input;
         _ ← emit (CallLogStackAction now "Creating new stack");
         waitFor name "CREATE_COMPLETE" now
       else if isUpToDate err then
         emit (CallLogStackAction now "No updates needed for stack")
       else throw err).

Definition delete_ (name : string) (now : Z) : M unit :=
  _ ← deleteStack name;
  _ ← emit (CallLogStackAction now "Deleting stack");
  waitFor name "DELETE_COMPLETE" now.

(** The credential providers [getCredentials] chooses from. *)
Inductive Credentials :=
| EnvironmentCredentials (envPrefix : string)
| EC2MetadataCredentials
| SharedIniFileCredentials (profile : option string).

(** [Stack.getCredentials(profile)]: [env] is [process.env] before the
    call, the second component is [process.env] after it. *)
Definition getCredentials (profile : option string) (env : gmap string string)
    : Credentials * gmap string string :=
  if Js.truthy (env !! "AWS_ACCESS_KEY_ID") && Js.truthy (env !! "AWS_SECRET_ACCESS_KEY")
  then (EnvironmentCredentials "AWS", env)
  else if bool_decide (env !! "USER" = Some "ec2-user")
  then (EC2MetadataCredentials, env)
  else (SharedIniFileCredentials profile, <["AWS_SDK_LOAD_CONFIG" := "true"]> env).

Section Console.
Variable toISOString : Z → string.
Variable wrap : string → nat → string → string.

Definition fmtTime (date : Z) : string := Js.substr 11 8 (toISOString date).

Definition fmtReason (reason : option string) : string :=
  if Js.truthy reason
  then Js.newline +:+ wrap (Js.or_empty reason) 90 (Js.repeat " " 9)
  else EmptyString.

Definition logEvent (e : StackEvent) : option string :=
  t ← Timestamp e;
  Some (Js.join " "
          (map Js.or_empty
             [ Some (fmtTime t);
               ResourceStatus e;
               ResourceType e;
               Some (Js.dquote +:+ default "undefined" (LogicalResourceId e) +:+ Js.dquote);
               Some (fmtReason (ResourceStatusReason e)) ])).

Definition logStackAction (name : string) (date : Z) (msg : string) : string :=
  Js.newline +:+ fmtTime date +:+ " " +:+ msg +:+ " " +:+ Js.dquote +:+ name
  +:+ Js.dquote +:+ Js.newline +:+ Js.repeat "=" 8.

Definition console_of (name : string) (c : Call) : option string :=
  match c with
  | CallLogStackAction date msg => Some (logStackAction name date msg)
  | CallLogEvent e => logEvent e
  | CallConsoleLog line => Some line
  | _ => None
  end.
End Console.

End SdkV2.

(** ** Reading the call trace *)

(** The events handed to [logEvent], in call order. *)
Definition logged_events (tr : list Call) : list StackEvent :=
  flat_map (λ c, match c with CallLogEvent e => [e] | _ => [] end) tr.

(** The calls made between world [w] and a later world [w']. *)
Definition calls_since (w w' : World) : list Call :=
  drop (List.length (calls w)) (calls w').

(** [a] is at least as new as [b] / [a] is newer than [b], by timestamp. *)
Definition not_older (a b : StackEvent) : Prop :=
  match Timestamp a, Timestamp b with
  | Some x, Some y => y ≤ x
  | _, _ => False
  end.

Definition newer (a b : StackEvent) : Prop :=
  match Timestamp a, Timestamp b with
  | Some x, Some y => y < x
  | _, _ => False
  end.

(** [e] is an event of the stack itself. *)
Definition is_stack_event (e : StackEvent) : bool :=
  bool_decide (ResourceType e = Some "AWS::CloudFormation::Stack").

(** The status an event of the stack itself hands to the loop. *)
Definition event_status (e : StackEvent) : string := Js.or_empty (ResourceStatus e).

(** The last character of a string. *)
Fixpoint last_char (s : string) : option ascii :=
  match s with
  | EmptyString => None
  | String c EmptyString => Some c
  | String _ s' => last_char s'
  end.

(** A call that submits a change to the stack. *)
Definition is_change (c : Call) : bool :=
  match c with
  | CallUpdateStack _ | CallCreateStack _ _ | CallDeleteStack _ => true
  | _ => false
  end.

(** The world [w] with the replies [more] put behind those the gateway
    already has for [describeStackEvents]. *)
Definition with_more_replies (more : list (Reply DescribeStackEventsOutput))
    (w : World) : World :=
  set_describeStackEvents_q (describeStackEvents_q w ++ more) (calls w) w.

(** The [catch] block of [createOrUpdate] in [src/index.ts], run on the
    caught error. *)
Definition createOrUpdate_catch (name template : string)
    (params : list (string * option string)) (now : Z) (err : Error) : M unit :=
  if SdkV3.stackDoesNotExist err then
    _ ← createStack "DELETE" (SdkV3.stackInput name template params);
    _ ← emit (CallLogStackAction now "Creating new stack");
    SdkV3.waitFor name "CREATE_COMPLETE" now
  else if SdkV3.stackIsUpToDate err then
    emit (CallLogStackAction now "No updates needed for stack")
  else throw err.

(** The world in which [createOrUpdate] starts to wait after an accepted
    update: the request and the banner are recorded, the reply is used. *)
Definition after_update (name template : string)
    (params : list (string * option string)) (now : Z)
    (q : list (Reply unit)) (w : World) : World :=
  record [CallLogStackAction now "Updating stack"]
    (set_updateStack_q q
       (record [CallUpdateStack (SdkV3.stackInput name template params)] w)).

(** [status] ends with one of the alternatives. *)
Definition ends_with_one_of (alts : list string) (status : string) : Prop :=
  ∃ alt before, In alt alts ∧ status = before +:+ alt.

(** [sub] occurs in [s]. *)
Definition occurs_in (sub s : string) : Prop :=
  ∃ before after, s = before +:+ sub +:+ after.

(** The shape of the calls one run of the loop of [waitFor] makes, started
    with the set [shown]: the loop stops at once; or it polls and the call
    settles the run (no reply, or a rejection); or it polls, prints the new
    events of the reply and goes on with the enlarged set.  [ok] is a
    property of the event lists the gateway sent. *)
Inductive Polls (ok : list StackEvent → Prop) (stackId : option string) (start : Z)
  : gset (option string) → list Call → Prop :=
| polls_exit shown :
    Polls ok stackId start shown []
| polls_stop shown :
    Polls ok stackId start shown [CallSleep 1500; CallDescribeStackEvents stackId]
| polls_next shown events rest :
    ok events →
    Polls ok stackId start
      (list_to_set (map EventId (SdkV3.new_events start shown events)) ∪ shown) rest →
    Polls ok stackId start shown
      ([CallSleep 1500; CallDescribeStackEvents stackId]
         ++ map CallLogEvent (SdkV3.new_events start shown events) ++ rest).

(** The replies of a queue that resolve carry event lists with [ok]. *)
Definition replies_ok (ok : list StackEvent → Prop)
    (q : list (Reply DescribeStackEventsOutput)) : Prop :=
  ∀ response, In (Resolve response) q → ok (default [] (StackEvents response)).

(** No identifier occurs twice in an event list. *)
Definition unique_ids (events : list StackEvent) : Prop :=
  NoDup (map EventId events).

(** An output that [getOutputs] stores under key [k] with value [v]: both
    are present and not empty, and the key is not [__proto__]. *)
Definition kept (k v : string) (o : Output) : Prop :=
  OutputKey o = Some k ∧ OutputValue o = Some v ∧ k ≠ EmptyString ∧ v ≠ EmptyString
  ∧ k ≠ "__proto__".

(** [v] is the value of the last output of [os] stored under [k]. *)
Definition last_kept (os : list Output) (k v : string) : Prop :=
  ∃ before o after,
    os = before ++ o :: after ∧ kept k v o
    ∧ ∀ o' v', In o' after → ¬ kept k v' o'.

(** ** Sample data *)

Module Sample.

Definition stack_type : string := "AWS::CloudFormation::Stack".
Definition role_type : string := "AWS::IAM::Role".

Definition event (t : Z) (id type status : string) : StackEvent :=
  {| Timestamp := Some t; EventId := Some id; ResourceType := Some type;
     LogicalResourceId := Some "SomeRole"; ResourceStatus := Some status;
     ResourceStatusReason := None |}.

Definition output (k v : string) : Output :=
  {| OutputKey := Some k; OutputValue := Some v |}.

Definition one_stack (os : list Output) : DescribeStacksOutput :=
  {| Stacks := Some [ {| StackId := Some "stack-id"; Outputs := Some os |} ] |}.

Definition events (es : list StackEvent) : Reply DescribeStackEventsOutput :=
  Resolve {| StackEvents := Some es |}.

Definition world (update create : list (Reply unit))
    (stacks : list (Reply DescribeStacksOutput))
    (polls : list (Reply DescribeStackEventsOutput)) : World :=
  {| updateStack_q := update; createStack_q := create; deleteStack_q := [];
     describeStacks_q := stacks; describeStackEvents_q := polls; calls := [] |}.

Definition vars (status : string) : LoopVars := {| shown := ∅; status := status |}.

Definition validation_error (msg : string) : Error :=
  {| Code := Some "ValidationError"; message := msg |}.

(** An update that is rolled back: the second reply repeats the events of
    the first and adds the final one; one event is older than the start. *)
Definition rollback_polls : list (Reply DescribeStackEventsOutput) :=
  [ events [ event 12 "b" role_type "UPDATE_COMPLETE";
             event 10 "a" stack_type "UPDATE_IN_PROGRESS";
             event 5 "z" stack_type "CREATE_COMPLETE" ];
    events [ event 20 "c" stack_type "UPDATE_ROLLBACK_COMPLETE";
             event 12 "b" role_type "UPDATE_COMPLETE";
             event 10 "a" stack_type "UPDATE_IN_PROGRESS";
             event 5 "z" stack_type "CREATE_COMPLETE" ];
    events [] ].

Definition rollback_world : World :=
  world [Resolve tt] [] [Resolve (one_stack [])] rollback_polls.

(** A stack that is created while [waitFor] watches. *)
Definition create_polls : list (Reply DescribeStackEventsOutput) :=
  [ events [ event 11 "a" stack_type "CREATE_IN_PROGRESS" ];
    events [ event 15 "c" stack_type "CREATE_COMPLETE";
             event 13 "b" role_type "CREATE_COMPLETE";
             event 11 "a" stack_type "CREATE_IN_PROGRESS" ] ].

(** A stack that is deleted while [waitFor] watches. *)
Definition delete_world : World :=
  {| updateStack_q := []; createStack_q := []; deleteStack_q := [Resolve tt];
     describeStacks_q := [Resolve (one_stack [])];
     describeStackEvents_q := [events [event 11 "d" stack_type "DELETE_COMPLETE"]];
     calls := [] |}.

Definition create_world : World :=
  world [Reject (validation_error "Stack [s] does not exist")] [Resolve tt]
    [Resolve (one_stack [])] create_polls.

End Sample.

(** * Properties *)

(** ** Strings *)

Section StringFacts.

Lemma prefix_append (a rest : string) : String.prefix a (a +:+ rest) = true.
Proof.
  induction a as [|c a IH]; simpl.
  - by destruct rest.
  - destruct (Ascii.ascii_dec c c); [exact IH | done].
Qed.

Lemma prefix_split (a s : string) :
  String.prefix a s = true → ∃ rest, s = a +:+ rest.
Proof.
  revert s; induction a as [|c a IH]; intros s H.
  - by exists s.
  - destruct s as [|d s]; simpl in H; [done |].
    destruct (Ascii.ascii_dec c d) as [->|]; [| done].
    destruct (IH _ H) as [rest ->]. by exists rest.
Qed.

Lemma includes_spec (sub s : string) :
  Js.includes sub s = true ↔ occurs_in sub s.
Proof.
  split.
  - induction s as [|c s IH]; cbn [Js.includes]; intros H.
    + apply orb_true_iff in H as [H | H]; [| done].
      destruct (prefix_split _ _ H) as [rest Hr].
      exists EmptyString, rest. exact Hr.
    + apply orb_true_iff in H as [H | H].
      * destruct (prefix_split _ _ H) as [rest Hr].
        exists EmptyString, rest. exact Hr.
      * destruct (IH H) as (b & a & ->). by exists (String c b), a.
  - intros (b & a & ->). induction b as [|c b IH].
    + change (Js.includes sub (sub +:+ a) = true).
      assert (Hp : String.prefix sub (sub +:+ a) = true) by apply prefix_append.
      destruct (sub +:+ a); cbn [Js.includes]; by rewrite Hp.
    + change (Js.includes sub (String c (b +:+ sub +:+ a)) = true).
      cbn [Js.includes]. rewrite IH. apply orb_true_r.
Qed.

Lemma substring_whole (s : string) : String.substring 0 (String.length s) s = s.
Proof. induction s as [|c s IH]; simpl; [done | by rewrite IH]. Qed.

Lemma length_append (a b : string) :
  String.length (a +:+ b) = (String.length a + String.length b)%nat.
Proof. induction a as [|c a IH]; simpl; [done | by rewrite IH]. Qed.

Lemma substring_at_end (i : nat) (a s : string) :
  String.substring i (String.length a) s = a
  ∧ (i + String.length a)%nat = String.length s
  ↔ ∃ before, String.length before = i ∧ s = before +:+ a.
Proof.
  split.
  - revert s; induction i as [|i IH]; intros s [Hsub Hlen].
    + exists EmptyString. split; [done |]. simpl in *.
      rewrite Hlen in Hsub. by rewrite substring_whole in Hsub.
    + destruct s as [|c s]; simpl in *; [lia |].
      destruct (IH s) as (b & Hb & ->); [split; [done | lia] |].
      exists (String c b). simpl. by rewrite Hb.
  - intros (b & <- & ->). split; [| by rewrite length_append].
    induction b as [|c b IH]; simpl; [apply substring_whole | exact IH].
Qed.

Lemma match_alts_at_end_spec (alts : list string) (s : string) :
  Js.match_alts_at_end alts s = true ↔ ends_with_one_of alts s.
Proof.
  unfold Js.match_alts_at_end, ends_with_one_of. rewrite existsb_exists. split.
  - intros (i & _ & H). apply existsb_exists in H as (alt & Hin & H).
    unfold Js.alt_at in H. apply andb_true_iff in H as [H1 H2].
    apply String.eqb_eq in H1. apply Nat.eqb_eq in H2.
    destruct (proj1 (substring_at_end i alt s) (conj H1 H2)) as (b & _ & ->).
    by exists alt, b.
  - intros (alt & b & Hin & ->). exists (String.length b). split.
    + apply in_seq. rewrite length_append. lia.
    + apply existsb_exists. exists alt. split; [done |].
      destruct (proj2 (substring_at_end (String.length b) alt (b +:+ alt))) as [H1 H2];
        [by exists b |].
      unfold Js.alt_at. by rewrite H1, String.eqb_refl, H2, Nat.eqb_refl.
Qed.

End StringFacts.

(** ** The loop of [waitFor] *)

Section LoopFacts.
Import SdkV3.

Lemma fold_on_event_calls (es : list StackEvent) vars tr :
  snd (fold_left on_event es (vars, tr)) = tr ++ map CallLogEvent es.
Proof.
  revert vars tr; induction es as [|e es IH]; intros vars tr; simpl.
  - by rewrite app_nil_r.
  - rewrite IH, <- app_assoc. done.
Qed.

Lemma fold_on_event_shown (es : list StackEvent) vars tr :
  shown (fst (fold_left on_event es (vars, tr)))
  = list_to_set (map EventId es) ∪ shown vars.
Proof.
  revert vars tr; induction es as [|e es IH]; intros vars tr; simpl.
  - by rewrite (left_id_L ∅ (∪)).
  - rewrite IH. simpl.
    by rewrite (assoc_L (∪)), (comm_L (∪) (list_to_set _) {[EventId e]}).
Qed.

Lemma fold_on_event_status_frame (es : list StackEvent) vars tr :
  Forall (λ e, ResourceType e ≠ Some "AWS::CloudFormation::Stack") es →
  status (fst (fold_left on_event es (vars, tr))) = status vars.
Proof.
  revert vars tr; induction es as [|e es IH]; intros vars tr H; simpl; [done |].
  inversion H as [|? ? He Hes]; subst. rewrite IH by done. simpl.
  by rewrite bool_decide_eq_false_2.
Qed.

Lemma process_events_calls start events vars tr :
  snd (process_events start events vars tr)
  = tr ++ map CallLogEvent (new_events start (shown vars) events).
Proof. apply fold_on_event_calls. Qed.

Lemma process_events_shown start events vars tr :
  shown (fst (process_events start events vars tr))
  = list_to_set (map EventId (new_events start (shown vars) events)) ∪ shown vars.
Proof. apply fold_on_event_shown. Qed.

Lemma in_new_events start shown e events :
  In e (new_events start shown events) ↔
  In e events ∧ Js.date_ge (Timestamp e) start = true ∧ EventId e ∉ shown.
Proof.
  unfold new_events, is_new. rewrite <- in_rev, filter_In, andb_true_iff.
  rewrite negb_true_iff, bool_decide_eq_false. tauto.
Qed.

Lemma poll_loop_finished q stackId start vars tr :
  finished (status vars) = true →
  poll_loop q stackId start vars tr = (Ret vars, q, tr).
Proof. intros H. destruct q; simpl; by rewrite H. Qed.

Lemma poll_loop_next response q stackId start vars tr :
  finished (status vars) = false →
  poll_loop (Resolve response :: q) stackId start vars tr
  = poll_loop q stackId start
      (fst (process_events start (default [] (StackEvents response)) vars
              (tr ++ [CallSleep 1500; CallDescribeStackEvents stackId])))
      (snd (process_events start (default [] (StackEvents response)) vars
              (tr ++ [CallSleep 1500; CallDescribeStackEvents stackId]))).
Proof.
  intros H. simpl. rewrite H.
  by destruct (process_events _ _ _ _).
Qed.

(** The loop only appends to the trace, and what it appends has the shape
    [Polls]. *)
Lemma poll_loop_calls ok q stackId start vars tr :
  replies_ok ok q →
  ∃ ext, snd (poll_loop q stackId start vars tr) = tr ++ ext
         ∧ Polls ok stackId start (shown vars) ext.
Proof.
  revert vars tr; induction q as [|r q IH]; intros vars tr Hok.
  - simpl. destruct (finished (status vars)); simpl.
    + exists []. split; [by rewrite app_nil_r | constructor].
    + eexists. split; [done | constructor].
  - destruct (finished (status vars)) eqn:Hf.
    + rewrite poll_loop_finished by done. simpl.
      exists []. split; [by rewrite app_nil_r | constructor].
    + destruct r as [response | err].
      * rewrite poll_loop_next by done.
        destruct (IH (fst (process_events start (default [] (StackEvents response)) vars
                             (tr ++ [CallSleep 1500; CallDescribeStackEvents stackId])))
                     (snd (process_events start (default [] (StackEvents response)) vars
                             (tr ++ [CallSleep 1500; CallDescribeStackEvents stackId]))))
          as (ext & Hext & Hp).
        { intros r Hr. apply Hok. by right. }
        rewrite Hext, process_events_calls.
        rewrite process_events_shown in Hp.
        eexists. split; [by rewrite <- !app_assoc |].
        apply polls_next; [| exact Hp]. apply Hok. by left.
      * simpl. rewrite Hf. simpl. eexists. split; [done | constructor].
Qed.

(** When the loop returns, the tracked status is finished. *)
Lemma poll_loop_ret q stackId start vars tr vars' q' tr' :
  poll_loop q stackId start vars tr = (Ret vars', q', tr') →
  finished (status vars') = true.
Proof.
  revert vars tr; induction q as [|r q IH]; intros vars tr.
  - simpl. destruct (finished (status vars)) eqn:Hf; [| done].
    intros [= <- <- <-]. done.
  - destruct (finished (status vars)) eqn:Hf.
    + rewrite poll_loop_finished by done. intros [= <- <- <-]. done.
    + destruct r as [response | err].
      * rewrite poll_loop_next by done. apply IH.
      * simpl. rewrite Hf. done.
Qed.

End LoopFacts.

(** ** What a run of the loop prints *)

Section PollsFacts.
Import SdkV3.
Context (ok : list StackEvent → Prop) (stackId : option string) (start : Z).

Lemma in_logged_events e tr : In e (logged_events tr) ↔ In (CallLogEvent e) tr.
Proof.
  unfold logged_events. rewrite in_flat_map. split.
  - intros (c & Hc & He). destruct c; simpl in He; try done.
    destruct He as [-> | []]. done.
  - intros H. exists (CallLogEvent e). split; [done | by left].
Qed.

Lemma logged_events_app tr1 tr2 :
  logged_events (tr1 ++ tr2) = logged_events tr1 ++ logged_events tr2.
Proof. apply flat_map_app. Qed.

Lemma logged_events_log es : logged_events (map CallLogEvent es) = es.
Proof. induction es as [|e es IH]; simpl; [done | by rewrite IH]. Qed.

(** Every event the loop prints was not in the set the loop started
    with, and is not older than [start]. *)
Lemma polls_fresh shown ext :
  Polls ok stackId start shown ext →
  ∀ e, In (CallLogEvent e) ext →
       (EventId e ∉ shown) ∧ Js.date_ge (Timestamp e) start = true.
Proof.
  induction 1 as [S | S | S events rest Hok Hrest IH]; intros e Hin.
  - destruct Hin.
  - destruct Hin as [H | [H | []]]; discriminate.
  - simpl in Hin. destruct Hin as [H | [H | Hin]]; [discriminate.. |].
    apply in_app_iff in Hin as [Hin | Hin].
    + apply in_map_iff in Hin as (e' & [= ->] & Hin).
      apply in_new_events in Hin. tauto.
    + destruct (IH e Hin) as [Hnot Hge]. split; [| done].
      intros HS. apply Hnot, elem_of_union. by right.
Qed.

(** Two prints of the loop with a poll between them carry different
    identifiers. *)
Lemma polls_no_reprint shown ext :
  Polls ok stackId start shown ext →
  ∀ (i k j : nat) e1 sid e2,
    ext !! i = Some (CallLogEvent e1) →
    ext !! k = Some (CallDescribeStackEvents sid) →
    ext !! j = Some (CallLogEvent e2) →
    (i < k)%nat → (k < j)%nat →
    EventId e1 ≠ EventId e2.
Proof.
  induction 1 as [S | S | S events rest Hok Hrest IH];
    intros i k j e1 sid e2 Hi Hk Hj Hik Hkj.
  - done.
  - destruct i as [|[|i]]; done.
  - destruct i as [|[|i]]; [done.. |].
    destruct k as [|[|k]]; [lia.. |].
    destruct j as [|[|j]]; [lia.. |].
    cbn [app lookup list_lookup] in Hi, Hk, Hj.
    apply lookup_app_Some in Hi as [Hi | [Hil Hi]].
    + assert (He1 : In e1 (new_events start S events)).
      { apply list_elem_of_lookup_2, list_elem_of_In, in_map_iff in Hi
          as (e' & [= ->] & Hin). done. }
      apply lookup_app_Some in Hj as [Hj | [Hjl Hj]].
      * apply lookup_lt_Some in Hj.
        apply lookup_app_Some in Hk as [Hk | [Hkl Hk]]; [| lia].
        apply list_elem_of_lookup_2, list_elem_of_In, in_map_iff in Hk
          as (e' & [=] & _).
      * apply list_elem_of_lookup_2, list_elem_of_In in Hj.
        destruct (polls_fresh _ _ Hrest e2 Hj) as [Hnot _].
        intros Heq. apply Hnot, elem_of_union. left.
        apply elem_of_list_to_set, list_elem_of_In, in_map_iff.
        by exists e1.
    + apply lookup_app_Some in Hk as [Hk | [Hkl Hk]];
        [apply lookup_lt_Some in Hk; lia |].
      apply lookup_app_Some in Hj as [Hj | [Hjl Hj]];
        [apply lookup_lt_Some in Hj; lia |].
      eapply IH; [exact Hi | exact Hk | exact Hj | lia | lia].
Qed.

Lemma NoDup_map_filter {A B} (g : A → B) (f : A → bool) (l : list A) :
  NoDup (map g l) → NoDup (map g (List.filter f l)).
Proof.
  induction l as [|a l IH]; simpl; [done |].
  intros H. apply NoDup_cons in H as [Hnot Hl].
  destruct (f a); simpl; [| by apply IH].
  apply NoDup_cons. split; [| by apply IH].
  intros Hin. apply Hnot.
  apply list_elem_of_In, in_map_iff in Hin as (x & Hx & Hin).
  apply filter_In in Hin as [Hin _].
  apply list_elem_of_In, in_map_iff. by exists x.
Qed.

Lemma new_events_unique shown events :
  unique_ids events → unique_ids (new_events start shown events).
Proof.
  unfold unique_ids, new_events. intros H.
  rewrite map_rev. apply NoDup_ListNoDup, List.NoDup_rev, NoDup_ListNoDup.
  by apply NoDup_map_filter.
Qed.

End PollsFacts.

(** When no reply lists an identifier twice, no identifier is printed
    twice. *)
Lemma polls_unique stackId start shown ext :
  Polls unique_ids stackId start shown ext →
  NoDup (map EventId (logged_events ext)).
Proof.
  induction 1 as [S | S | S events rest Hok Hrest IH].
  - constructor.
  - constructor.
  - change (NoDup (map EventId (logged_events
              (map CallLogEvent (SdkV3.new_events start S events) ++ rest)))).
    rewrite logged_events_app, logged_events_log, map_app.
    apply NoDup_app. split; [by apply new_events_unique |]. split; [| done].
    intros x Hx Hx'.
    apply list_elem_of_In, in_map_iff in Hx' as (e & <- & He).
    apply in_logged_events in He.
    destruct (polls_fresh _ _ _ _ _ Hrest e He) as [Hnot _].
    apply Hnot, elem_of_union. left. by apply elem_of_list_to_set.
Qed.

(** ** The calls of [waitFor] *)

Section WaitForFacts.
Import SdkV3.

Lemma calls_since_app w w' ext :
  calls w' = calls w ++ ext → calls_since w w' = ext.
Proof. unfold calls_since. intros ->. apply drop_app_length. Qed.

Lemma getStackId_effect name w :
  calls (snd (getStackId name w)) = calls w ++ [CallDescribeStacks name]
  ∧ describeStackEvents_q (snd (getStackId name w)) = describeStackEvents_q w.
Proof.
  unfold getStackId, mbind, M_bind, describeStacks, gateway.
  destruct (describeStacks_q w) as [|[response | err] qs]; [done | | done].
  destruct (Stacks response) as [[|s [|s' l]]|]; done.
Qed.

(** [waitFor] looks the stack up, runs the loop on an empty [shown] set,
    and prints the closing separator when the loop returns. *)
Lemma waitFor_calls ok name success start w :
  replies_ok ok (describeStackEvents_q w) →
  ∃ sid ext tail,
    calls (snd (waitFor name success start w))
    = calls w ++ CallDescribeStacks name :: ext ++ tail
    ∧ Polls ok sid start ∅ ext
    ∧ (tail = [] ∨ tail = [CallConsoleLog (Js.repeat "=" 8)]).
Proof.
  intros Hok. destruct (getStackId_effect name w) as [Hc Hq].
  unfold waitFor, mbind, M_bind.
  destruct (getStackId name w) as [[sid | e |] w1]; simpl in Hc, Hq.
  - unfold while_not_finished.
    destruct (poll_loop_calls ok (describeStackEvents_q w1) sid start
                {| shown := ∅; status := EmptyString |} (calls w1))
      as (ext & Hext & Hp); [by rewrite Hq |].
    destruct (poll_loop _ _ _ _ _) as [[r q'] tr']. simpl in Hext. subst tr'.
    exists sid, ext. rewrite Hc, <- app_assoc. simpl.
    destruct r as [vars | e |].
    + exists [CallConsoleLog (Js.repeat "=" 8)].
      split; [| by auto].
      destruct (bool_decide _); simpl; by rewrite <- app_assoc.
    + exists []. rewrite app_nil_r. by auto.
    + exists []. rewrite app_nil_r. by auto.
  - exists None, [], []. simpl. split; [done |]. split; [constructor | by left].
  - exists None, [], []. simpl. split; [done |]. split; [constructor | by left].
Qed.

(** The calls [waitFor] makes, without the lookup that opens them and
    the separator that may close them, have the shape [Polls]. *)
Lemma waitFor_since ok name success start w :
  replies_ok ok (describeStackEvents_q w) →
  ∃ sid ext tail,
    calls_since w (snd (waitFor name success start w))
    = CallDescribeStacks name :: ext ++ tail
    ∧ Polls ok sid start ∅ ext
    ∧ (tail = [] ∨ tail = [CallConsoleLog (Js.repeat "=" 8)]).
Proof.
  intros Hok.
  destruct (waitFor_calls ok name success start w Hok) as (sid & ext & tail & Hc & H).
  exists sid, ext, tail. split; [by apply calls_since_app | done].
Qed.

Lemma replies_ok_True q : replies_ok (λ _, True) q.
Proof. by intros r _. Qed.

(** A print at position [i] of [c :: ext ++ tail] is a print of [ext]. *)
Lemma lookup_between (c : Call) ext tail (i : nat) (x : Call) :
  (c :: ext ++ tail) !! i = Some x →
  x ≠ c → ¬ In x tail →
  ∃ i', i = S i' ∧ ext !! i' = Some x.
Proof.
  intros Hi Hc Ht. destruct i as [|i]; simpl in Hi; [congruence |].
  exists i. split; [done |].
  apply lookup_app_Some in Hi as [Hi | [_ Hi]]; [done |].
  exfalso. apply Ht, list_elem_of_In. by eapply list_elem_of_lookup_2.
Qed.

End WaitForFacts.

(** ** When the loop of [waitFor] stops *)

(** C1, as the code has it: the loop of [waitFor] goes on exactly as long as
    the tracked status does not END WITH one of the seven terminal values.
    With a status that ends with one of them (the seven themselves among
    these) the loop returns at once, making no call; with any other status
    it sleeps and asks the gateway for the events once more. *)
Theorem waitFor_polls_until_status_ends_terminal
    (q : list (Reply DescribeStackEventsOutput)) (stackId : option string)
    (start : Z) (vars : LoopVars) (tr : list Call) :
  (ends_with_one_of SdkV3.finished_alternatives (status vars)
   ↔ SdkV3.poll_loop q stackId start vars tr = (Ret vars, q, tr))
  ∧ (¬ ends_with_one_of SdkV3.finished_alternatives (status vars)
     ↔ ∃ ext, snd (SdkV3.poll_loop q stackId start vars tr)
              = tr ++ [CallSleep 1500; CallDescribeStackEvents stackId] ++ ext)
  ∧ (In (status vars) SdkV3.finished_alternatives
     → SdkV3.poll_loop q stackId start vars tr = (Ret vars, q, tr)).
Proof.
  assert (Hpoll : SdkV3.finished (status vars) = false →
            ∃ ext, snd (SdkV3.poll_loop q stackId start vars tr)
                   = tr ++ [CallSleep 1500; CallDescribeStackEvents stackId] ++ ext).
  { intros Hf. destruct q as [|[response | err] q].
    - exists []. simpl. by rewrite Hf.
    - rewrite poll_loop_next by done.
      destruct (poll_loop_calls (λ _, True) q stackId start
                  (fst (SdkV3.process_events start (default [] (StackEvents response)) vars
                          (tr ++ [CallSleep 1500; CallDescribeStackEvents stackId])))
                  (snd (SdkV3.process_events start (default [] (StackEvents response)) vars
                          (tr ++ [CallSleep 1500; CallDescribeStackEvents stackId]))))
        as (ext & -> & _); [apply replies_ok_True |].
      rewrite process_events_calls. eexists. by rewrite <- !app_assoc.
    - exists []. simpl. by rewrite Hf. }
  assert (Hne : ∀ ext, tr ≠ tr ++ [CallSleep 1500; CallDescribeStackEvents stackId] ++ ext).
  { intros ext Heq. apply (f_equal List.length) in Heq.
    rewrite !length_app in Heq. simpl in Heq. lia. }
  unfold SdkV3.finished in Hpoll.
  destruct (Js.match_alts_at_end SdkV3.finished_alternatives (status vars)) eqn:Hf.
  - apply match_alts_at_end_spec in Hf as Hends.
    assert (Hexit : SdkV3.poll_loop q stackId start vars tr = (Ret vars, q, tr))
      by (by apply poll_loop_finished).
    split; [done |]. split; [| done]. split; [done |].
    intros [ext Hext]. rewrite Hexit in Hext. by apply Hne in Hext.
  - assert (Hnot : ¬ ends_with_one_of SdkV3.finished_alternatives (status vars)).
    { intros H. apply match_alts_at_end_spec in H. congruence. }
    destruct (Hpoll eq_refl) as [ext Hext].
    split; [| split].
    + split; [done |]. intros Heq. rewrite Heq in Hext. by apply Hne in Hext.
    + split; [by exists ext | done].
    + intros Hin. destruct Hnot. exists (status vars), EmptyString. done.
Qed.

Lemma waitFor_polls_until_status_ends_terminal_witness :
  SdkV3.poll_loop Sample.rollback_polls None 0 (Sample.vars "DELETE_FAILED") []
  = (Ret (Sample.vars "DELETE_FAILED"), Sample.rollback_polls, []).
Proof.
  apply (waitFor_polls_until_status_ends_terminal
           Sample.rollback_polls None 0 (Sample.vars "DELETE_FAILED") []).
  simpl. tauto.
Defined.

(** C1, as the claim has it, fails: [UPDATE_ROLLBACK_COMPLETE] is none of
    the seven values, yet with it as the tracked status the loop stops and
    leaves the replies of the gateway untouched; a whole run of [waitFor]
    that meets this status in its second poll ends there, the third reply
    unread. *)
Lemma waitFor_stops_on_update_rollback :
  ¬ In "UPDATE_ROLLBACK_COMPLETE" SdkV3.finished_alternatives
  ∧ SdkV3.poll_loop Sample.rollback_polls None 0
      (Sample.vars "UPDATE_ROLLBACK_COMPLETE") []
    = (Ret (Sample.vars "UPDATE_ROLLBACK_COMPLETE"), Sample.rollback_polls, [])
  ∧ fst (SdkV3.waitFor "s" "UPDATE_COMPLETE" 10 Sample.rollback_world)
    = Throw (mkError "Unexpected Stack Status UPDATE_ROLLBACK_COMPLETE")
  ∧ describeStackEvents_q (snd (SdkV3.waitFor "s" "UPDATE_COMPLETE" 10 Sample.rollback_world))
    = [Sample.events []].
Proof.
  split; [| split; [| split]].
  - simpl. intros H. repeat destruct H as [H | H]; done.
  - vm_compute. reflexivity.
  - vm_compute. reflexivity.
  - vm_compute. reflexivity.
Qed.

(** ** The status check that ends [waitFor] *)

(** C5: when the lookup of the stack succeeds and the loop returns with
    tracked status [status vars], [waitFor] throws the error
    [Unexpected Stack Status <status>] if and only if that status differs
    from the expected one, and returns normally if and only if they are
    equal; at that point the tracked status is a finished one. *)
Theorem waitFor_throws_iff_status_differs
    (name success : string) (start : Z) (w w1 w2 : World)
    (stackId : option string) (vars : LoopVars) :
  SdkV3.getStackId name w = (Ret stackId, w1) →
  SdkV3.while_not_finished stackId start
    {| shown := ∅; status := EmptyString |} w1 = (Ret vars, w2) →
  (fst (SdkV3.waitFor name success start w)
   = Throw (mkError ("Unexpected Stack Status " +:+ status vars))
   ↔ status vars ≠ success)
  ∧ (fst (SdkV3.waitFor name success start w) = Ret tt ↔ status vars = success)
  ∧ snd (SdkV3.waitFor name success start w)
    = record [CallConsoleLog (Js.repeat "=" 8)] w2
  ∧ SdkV3.finished (status vars) = true.
Proof.
  intros Hid Hloop.
  assert (Hfin : SdkV3.finished (status vars) = true).
  { unfold SdkV3.while_not_finished in Hloop.
    destruct (SdkV3.poll_loop _ _ _ _ _) as [[r q'] tr'] eqn:Hp.
    injection Hloop as -> _. by eapply poll_loop_ret. }
  unfold SdkV3.waitFor, mbind, M_bind. rewrite Hid, Hloop. simpl.
  destruct (decide (status vars = success)) as [Heq | Hne].
  - rewrite bool_decide_eq_false_2 by (by intros H; apply H). simpl.
    repeat split; done.
  - rewrite bool_decide_eq_true_2 by done. simpl.
    repeat split; done.
Qed.

Lemma waitFor_throws_iff_status_differs_witness :
  fst (SdkV3.waitFor "s" "UPDATE_COMPLETE" 10 Sample.rollback_world)
  = Throw (mkError "Unexpected Stack Status UPDATE_ROLLBACK_COMPLETE").
Proof.
  set (w1 := snd (SdkV3.getStackId "s" Sample.rollback_world)).
  set (r := SdkV3.while_not_finished (Some "stack-id") 10
              (Sample.vars EmptyString) w1).
  set (vars := match fst r with Ret v => v | _ => Sample.vars EmptyString end).
  refine (proj2 (proj1 (waitFor_throws_iff_status_differs "s" "UPDATE_COMPLETE" 10
                          Sample.rollback_world w1 (snd r) (Some "stack-id") vars _ _)) _).
  - vm_compute. reflexivity.
  - vm_compute. reflexivity.
  - vm_compute. discriminate.
Defined.

(** ** The temporal filter *)

(** C6: whatever the gateway replies, every event a run of [waitFor] prints
    carries a timestamp, and that timestamp is not before [start]. *)
Theorem waitFor_prints_nothing_older_than_start
    (name success : string) (start : Z) (w : World) (e : StackEvent) :
  In e (logged_events (calls_since w (snd (SdkV3.waitFor name success start w)))) →
  ∃ t, Timestamp e = Some t ∧ start ≤ t.
Proof.
  intros Hin.
  destruct (waitFor_since (λ _, True) name success start w (replies_ok_True _))
    as (sid & ext & tail & Hc & Hp & Htail).
  rewrite Hc in Hin.
  apply in_logged_events in Hin. destruct Hin as [Hin | Hin]; [done |].
  apply in_app_iff in Hin as [Hin | Hin].
  - destruct (polls_fresh _ _ _ _ _ Hp e Hin) as [_ Hge].
    destruct (Timestamp e) as [t|]; [| done].
    exists t. split; [done |]. simpl in Hge. lia.
  - destruct Htail as [-> | ->]; [done |].
    destruct Hin as [Hin | []]. done.
Qed.

Lemma waitFor_prints_nothing_older_than_start_witness :
  ∃ t, Timestamp (Sample.event 12 "b" Sample.role_type "UPDATE_COMPLETE") = Some t
       ∧ 10 ≤ t.
Proof.
  apply (waitFor_prints_nothing_older_than_start "s" "UPDATE_COMPLETE" 10
           Sample.rollback_world).
  vm_compute. tauto.
Defined.

(** ** Each identifier is printed once *)

(** C2, as the code has it: in the calls of one run of [waitFor], two
    prints that lie in different polls (a [describeStackEvents] call between
    them) never carry the same event identifier, whatever the gateway
    replies; and when no single reply lists an identifier twice, no
    identifier is printed twice in the whole run. *)
Theorem waitFor_prints_each_id_once
    (name success : string) (start : Z) (w : World) :
  (∀ (i k j : nat) e1 sid e2,
     calls_since w (snd (SdkV3.waitFor name success start w)) !! i
       = Some (CallLogEvent e1) →
     calls_since w (snd (SdkV3.waitFor name success start w)) !! k
       = Some (CallDescribeStackEvents sid) →
     calls_since w (snd (SdkV3.waitFor name success start w)) !! j
       = Some (CallLogEvent e2) →
     (i < k)%nat → (k < j)%nat →
     EventId e1 ≠ EventId e2)
  ∧ (replies_ok unique_ids (describeStackEvents_q w) →
     NoDup (map EventId
              (logged_events (calls_since w (snd (SdkV3.waitFor name success start w)))))).
Proof.
  split.
  - destruct (waitFor_since (λ _, True) name success start w (replies_ok_True _))
      as (sid0 & ext & tail & Hc & Hp & Htail).
    rewrite Hc. intros i k j e1 sid e2 Hi Hk Hj Hik Hkj.
    assert (Ht : ∀ x, x ≠ CallConsoleLog (Js.repeat "=" 8) → ¬ In x tail).
    { intros x Hx Hin. destruct Htail as [-> | ->]; [done |].
      destruct Hin as [<- | []]. done. }
    destruct (lookup_between _ _ _ _ _ Hi) as (i' & -> & Hi'); [done | by apply Ht |].
    destruct (lookup_between _ _ _ _ _ Hk) as (k' & -> & Hk'); [done | by apply Ht |].
    destruct (lookup_between _ _ _ _ _ Hj) as (j' & -> & Hj'); [done | by apply Ht |].
    eapply (polls_no_reprint _ _ _ _ _ Hp); [exact Hi' | exact Hk' | exact Hj' | lia | lia].
  - intros Hok.
    destruct (waitFor_since unique_ids name success start w Hok)
      as (sid0 & ext & tail & Hc & Hp & Htail).
    rewrite Hc.
    change (NoDup (map EventId (logged_events ([CallDescribeStacks name] ++ ext ++ tail)))).
    rewrite !logged_events_app.
    destruct Htail as [-> | ->]; simpl; rewrite app_nil_r; by eapply polls_unique.
Qed.

Lemma waitFor_prints_each_id_once_witness :
  NoDup (map EventId
           (logged_events
              (calls_since Sample.rollback_world
                 (snd (SdkV3.waitFor "s" "UPDATE_COMPLETE" 10 Sample.rollback_world))))).
Proof.
  apply (waitFor_prints_each_id_once "s" "UPDATE_COMPLETE" 10 Sample.rollback_world).
  intros response Hin. simpl in Hin.
  destruct Hin as [[= <-] | [[= <-] | [[= <-] | []]]];
    apply (bool_decide_unpack _); vm_compute; exact I.
Defined.

(** C2, as the claim has it, fails: the filter of one iteration reads the
    [shown] set before any event of that iteration is added to it, so a
    reply that lists one event twice has it printed twice. *)
Lemma waitFor_prints_repeated_entry_twice :
  let e := Sample.event 11 "a" Sample.stack_type "CREATE_COMPLETE" in
  let w := Sample.world [] [] [Resolve (Sample.one_stack [])] [Sample.events [e; e]] in
  SdkV3.waitFor "s" "CREATE_COMPLETE" 10 w
  = (Ret tt,
     {| updateStack_q := []; createStack_q := []; deleteStack_q := [];
        describeStacks_q := []; describeStackEvents_q := [];
        calls := [ CallDescribeStacks "s";
                   CallSleep 1500;
                   CallDescribeStackEvents (Some "stack-id");
                   CallLogEvent e;
                   CallLogEvent e;
                   CallConsoleLog "========" ] |})
  ∧ ¬ NoDup (map EventId
               (logged_events (calls_since w (snd (SdkV3.waitFor "s" "CREATE_COMPLETE" 10 w))))).
Proof.
  intros e w. split; [by vm_compute |].
  intros H. vm_compute in H. apply NoDup_cons in H as [H _].
  apply H. by left.
Qed.

(** ** The order of the printed events *)

Lemma StronglySorted_filter_bool {A} (R : A → A → Prop) (f : A → bool) (l : list A) :
  StronglySorted R l → StronglySorted R (List.filter f l).
Proof.
  induction 1 as [|a l Hl IH Ha]; simpl; [constructor |].
  destruct (f a); [| done]. constructor; [done |].
  apply List.Forall_forall. intros x Hx. apply filter_In in Hx as [Hx _].
  by eapply List.Forall_forall in Ha.
Qed.

Lemma StronglySorted_snoc {A} (R : A → A → Prop) (l : list A) (a : A) :
  StronglySorted R l → Forall (λ x, R x a) l → StronglySorted R (l ++ [a]).
Proof.
  induction 1 as [|b l Hl IH Hb]; simpl; intros Ha.
  - repeat constructor.
  - apply Forall_cons_iff in Ha as [Hba Ha]. constructor; [by apply IH |].
    apply Forall_app. split; [done | by constructor].
Qed.

Lemma StronglySorted_rev_flip {A} (R : A → A → Prop) (l : list A) :
  StronglySorted R l → StronglySorted (flip R) (rev l).
Proof.
  induction 1 as [|a l Hl IH Ha]; simpl; [constructor |].
  apply StronglySorted_snoc; [done |].
  apply List.Forall_forall. intros x Hx. apply in_rev in Hx.
  by eapply List.Forall_forall in Ha.
Qed.

Lemma new_events_sorted (R : StackEvent → StackEvent → Prop) start shown events :
  StronglySorted R events →
  StronglySorted (flip R) (SdkV3.new_events start shown events).
Proof.
  intros H. by apply StronglySorted_rev_flip, StronglySorted_filter_bool.
Qed.

Lemma not_older_trans : Relations_1.Transitive not_older.
Proof.
  intros a b c. unfold not_older.
  destruct (Timestamp a), (Timestamp b), (Timestamp c); try done. lia.
Qed.

Lemma newer_trans : Relations_1.Transitive newer.
Proof.
  intros a b c. unfold newer.
  destruct (Timestamp a), (Timestamp b), (Timestamp c); try done. lia.
Qed.

(** C3, as the code has it: one iteration prints exactly the events
    [new_events] lists, in that order; when the reply is ordered newest
    first, every printed event comes before all printed events that are not
    older than it (oldest first, events of equal timestamp one after the
    other), and when the timestamps of the reply strictly decrease, those
    of the printed events strictly increase. *)
Theorem iteration_prints_oldest_first
    (start : Z) (vars : LoopVars) (tr : list Call) (events : list StackEvent) :
  snd (SdkV3.process_events start events vars tr)
  = tr ++ map CallLogEvent (SdkV3.new_events start (shown vars) events)
  ∧ (Sorted not_older events →
     StronglySorted (flip not_older) (SdkV3.new_events start (shown vars) events))
  ∧ (Sorted newer events →
     StronglySorted (flip newer) (SdkV3.new_events start (shown vars) events)).
Proof.
  split; [apply process_events_calls |]. split; intros H.
  - by apply new_events_sorted, Sorted_StronglySorted; [apply not_older_trans |].
  - by apply new_events_sorted, Sorted_StronglySorted; [apply newer_trans |].
Qed.

Lemma iteration_prints_oldest_first_witness :
  StronglySorted (flip newer)
    (SdkV3.new_events 10 ∅
       [ Sample.event 12 "b" Sample.role_type "UPDATE_COMPLETE";
         Sample.event 10 "a" Sample.stack_type "UPDATE_IN_PROGRESS";
         Sample.event 5 "z" Sample.stack_type "CREATE_COMPLETE" ]).
Proof.
  apply (iteration_prints_oldest_first 10 (Sample.vars EmptyString) []).
  repeat constructor; simpl; lia.
Defined.

(** C3, as the claim has it, fails: a reply that is ordered newest first
    and lists two events of the same timestamp has both printed one after
    the other, so the printed timestamps do not strictly increase. *)
Lemma iteration_prints_equal_timestamps_in_a_row :
  let b := Sample.event 12 "b" Sample.role_type "UPDATE_COMPLETE" in
  let a := Sample.event 12 "a" Sample.stack_type "UPDATE_IN_PROGRESS" in
  Sorted not_older [b; a]
  ∧ snd (SdkV3.process_events 10 [b; a] (Sample.vars EmptyString) [])
    = [CallLogEvent a; CallLogEvent b]
  ∧ ¬ Sorted (flip newer) (SdkV3.new_events 10 ∅ [b; a])
  ∧ ¬ StronglySorted (flip newer) (SdkV3.new_events 10 ∅ [b; a]).
Proof.
  intros b a.
  assert (Hnot : ¬ Sorted (flip newer) (SdkV3.new_events 10 ∅ [b; a])).
  { intros H.
    replace (SdkV3.new_events 10 ∅ [b; a]) with [a; b] in H by (by vm_compute).
    apply Sorted_inv in H as [_ H]. apply HdRel_inv in H.
    unfold flip, newer in H. simpl in H. lia. }
  split.
  { apply Sorted_cons; [apply Sorted_cons; constructor |].
    constructor. unfold not_older. simpl. lia. }
  split; [by vm_compute |].
  split; [exact Hnot |].
  intros H. by apply Hnot, StronglySorted_Sorted.
Qed.

(** ** Events of child resources *)

(** C4: an event whose resource type is not [AWS::CloudFormation::Stack]
    is printed and marked as shown, and leaves the tracked status as it
    was, so the loop condition reads the same before and after it, whatever
    status the event names; an iteration all of whose new events are of
    that kind hands the unchanged status to the next poll. *)
Theorem child_event_leaves_status
    (vars : LoopVars) (tr : list Call) (e : StackEvent) :
  ResourceType e ≠ Some "AWS::CloudFormation::Stack" →
  SdkV3.on_event (vars, tr) e
  = ({| shown := {[EventId e]} ∪ shown vars; status := status vars |},
     tr ++ [CallLogEvent e])
  ∧ SdkV3.finished (status (fst (SdkV3.on_event (vars, tr) e)))
    = SdkV3.finished (status vars)
  ∧ ∀ start response q stackId,
      SdkV3.finished (status vars) = false →
      Forall (λ e', ResourceType e' ≠ Some "AWS::CloudFormation::Stack")
        (SdkV3.new_events start (shown vars) (default [] (StackEvents response))) →
      ∃ vars',
        status vars' = status vars
        ∧ SdkV3.poll_loop (Resolve response :: q) stackId start vars tr
          = SdkV3.poll_loop q stackId start vars'
              (tr ++ [CallSleep 1500; CallDescribeStackEvents stackId]
                  ++ map CallLogEvent
                       (SdkV3.new_events start (shown vars)
                          (default [] (StackEvents response)))).
Proof.
  intros Hty.
  assert (Hev : SdkV3.on_event (vars, tr) e
                = ({| shown := {[EventId e]} ∪ shown vars; status := status vars |},
                   tr ++ [CallLogEvent e])).
  { unfold SdkV3.on_event. by rewrite bool_decide_eq_false_2. }
  split; [done |]. split; [by rewrite Hev |].
  intros start response q stackId Hf Hall.
  rewrite poll_loop_next by done.
  eexists. split; [| by rewrite process_events_calls, <- app_assoc].
  by apply fold_on_event_status_frame.
Qed.

Lemma child_event_leaves_status_witness :
  SdkV3.finished
    (status (fst (SdkV3.on_event (Sample.vars "UPDATE_IN_PROGRESS", [])
                    (Sample.event 12 "b" Sample.role_type "UPDATE_COMPLETE"))))
  = SdkV3.finished (status (Sample.vars "UPDATE_IN_PROGRESS")).
Proof.
  apply (child_event_leaves_status (Sample.vars "UPDATE_IN_PROGRESS") []
           (Sample.event 12 "b" Sample.role_type "UPDATE_COMPLETE")).
  simpl. discriminate.
Defined.

(** ** [createOrUpdate] *)

Section CreateOrUpdateFacts.
Import SdkV3.

Lemma stackDoesNotExist_spec err :
  stackDoesNotExist err = true
  ↔ Code err = Some "ValidationError" ∧ occurs_in "does not exist" (message err).
Proof.
  unfold stackDoesNotExist.
  by rewrite andb_true_iff, bool_decide_eq_true, includes_spec.
Qed.

Lemma stackIsUpToDate_spec err :
  stackIsUpToDate err = true
  ↔ Code err = Some "ValidationError"
    ∧ occurs_in "No updates are to be performed" (message err).
Proof.
  unfold stackIsUpToDate.
  by rewrite andb_true_iff, bool_decide_eq_true, includes_spec.
Qed.

(** When the update is rejected, [createOrUpdate] is the [catch] block run
    on the rejection. *)
Lemma createOrUpdate_update_rejected name template params now w err q :
  updateStack_q w = Reject err :: q →
  createOrUpdate name template params now w
  = (if stackDoesNotExist err then
       _ ← createStack "DELETE" (stackInput name template params);
       _ ← emit (CallLogStackAction now "Creating new stack");
       waitFor name "CREATE_COMPLETE" now
     else if stackIsUpToDate err then
       emit (CallLogStackAction now "No updates needed for stack")
     else throw err)
      (set_updateStack_q q
         (record [CallUpdateStack (stackInput name template params)] w)).
Proof.
  intros Hq. unfold createOrUpdate, try_catch.
  unfold mbind at 1, M_bind at 1, updateStack, gateway. by rewrite Hq.
Qed.

End CreateOrUpdateFacts.

(** C7: when the update is rejected with an error whose code is
    [ValidationError] and whose message contains [does not exist],
    [createOrUpdate] goes on with a create request for the same stack input
    with [OnFailure] set to [DELETE], then the banner, then [waitFor]
    expecting [CREATE_COMPLETE]; when the gateway accepts the create
    request, the rest of the run is that [waitFor]. *)
Theorem createOrUpdate_creates_missing_stack
    (name template : string) (params : list (string * option string)) (now : Z)
    (w : World) (err : Error) (q : list (Reply unit)) :
  updateStack_q w = Reject err :: q →
  Code err = Some "ValidationError" →
  occurs_in "does not exist" (message err) →
  SdkV3.createOrUpdate name template params now w
  = (_ ← createStack "DELETE" (SdkV3.stackInput name template params);
     _ ← emit (CallLogStackAction now "Creating new stack");
     SdkV3.waitFor name "CREATE_COMPLETE" now)
      (set_updateStack_q q
         (record [CallUpdateStack (SdkV3.stackInput name template params)] w))
  ∧ ∀ qc, createStack_q w = Resolve tt :: qc →
      SdkV3.createOrUpdate name template params now w
      = SdkV3.waitFor name "CREATE_COMPLETE" now
          (record [CallLogStackAction now "Creating new stack"]
             (set_createStack_q qc
                (record [CallCreateStack "DELETE" (SdkV3.stackInput name template params)]
                   (set_updateStack_q q
                      (record [CallUpdateStack (SdkV3.stackInput name template params)] w))))).
Proof.
  intros Hq Hcode Hmsg.
  assert (Hd : SdkV3.stackDoesNotExist err = true) by (by apply stackDoesNotExist_spec).
  rewrite (createOrUpdate_update_rejected _ _ _ _ _ _ _ Hq), Hd.
  split; [done |]. intros qc Hc.
  unfold mbind, M_bind, createStack, gateway, emit. simpl. by rewrite Hc.
Qed.

Lemma createOrUpdate_creates_missing_stack_witness :
  calls (snd (SdkV3.createOrUpdate "s" "t" [("Env", Some "test1")] 10
                (Sample.world
                   [Reject (Sample.validation_error "Stack [s] does not exist")]
                   [Resolve tt] [] [])))
  = [ CallUpdateStack (SdkV3.stackInput "s" "t" [("Env", Some "test1")]);
      CallCreateStack "DELETE" (SdkV3.stackInput "s" "t" [("Env", Some "test1")]);
      CallLogStackAction 10 "Creating new stack";
      CallDescribeStacks "s" ].
Proof.
  rewrite (proj2 (createOrUpdate_creates_missing_stack "s" "t" [("Env", Some "test1")] 10
                    (Sample.world
                       [Reject (Sample.validation_error "Stack [s] does not exist")]
                       [Resolve tt] [] [])
                    (Sample.validation_error "Stack [s] does not exist") []
                    eq_refl eq_refl
                    (ex_intro _ "Stack [s] " (ex_intro _ EmptyString eq_refl)))
            [] eq_refl).
  vm_compute. reflexivity.
Defined.

(** C8, as the code has it: when the update is rejected with an error that
    is not classified as "does not exist" (code [ValidationError] and
    message containing [does not exist]), then: if its code is
    [ValidationError] and its message contains
    [No updates are to be performed], [createOrUpdate] prints the banner
    and returns, having made no other call (no lookup, no sleep, no poll);
    and if it is not classified as up to date either, [createOrUpdate]
    throws that same error, having made no other call. *)
Theorem createOrUpdate_without_changes
    (name template : string) (params : list (string * option string)) (now : Z)
    (w : World) (err : Error) (q : list (Reply unit)) :
  updateStack_q w = Reject err :: q →
  ¬ (Code err = Some "ValidationError" ∧ occurs_in "does not exist" (message err)) →
  (Code err = Some "ValidationError"
   ∧ occurs_in "No updates are to be performed" (message err) →
   SdkV3.createOrUpdate name template params now w
   = (Ret tt,
      record [CallLogStackAction now "No updates needed for stack"]
        (set_updateStack_q q
           (record [CallUpdateStack (SdkV3.stackInput name template params)] w))))
  ∧ (¬ (Code err = Some "ValidationError"
        ∧ occurs_in "No updates are to be performed" (message err)) →
     SdkV3.createOrUpdate name template params now w
     = (Throw err,
        set_updateStack_q q
          (record [CallUpdateStack (SdkV3.stackInput name template params)] w))).
Proof.
  intros Hq Hnot.
  rewrite (createOrUpdate_update_rejected _ _ _ _ _ _ _ Hq).
  destruct (SdkV3.stackDoesNotExist err) eqn:Hd;
    [by apply stackDoesNotExist_spec in Hd |].
  split; intros Hup.
  - apply stackIsUpToDate_spec in Hup. by rewrite Hup.
  - destruct (SdkV3.stackIsUpToDate err) eqn:Hu; [| done].
    by apply stackIsUpToDate_spec in Hu.
Qed.

Lemma createOrUpdate_without_changes_witness :
  SdkV3.createOrUpdate "s" "t" [("Env", Some "test2")] 10
    (Sample.world
       [Reject (Sample.validation_error "No updates are to be performed.")]
       [] [] Sample.rollback_polls)
  = (Ret tt,
     {| updateStack_q := []; createStack_q := []; deleteStack_q := [];
        describeStacks_q := []; describeStackEvents_q := Sample.rollback_polls;
        calls := [ CallUpdateStack (SdkV3.stackInput "s" "t" [("Env", Some "test2")]);
                   CallLogStackAction 10 "No updates needed for stack" ] |}).
Proof.
  refine (proj1 (createOrUpdate_without_changes "s" "t" [("Env", Some "test2")] 10
                   (Sample.world
                      [Reject (Sample.validation_error "No updates are to be performed.")]
                      [] [] Sample.rollback_polls)
                   (Sample.validation_error "No updates are to be performed.") []
                   eq_refl _) _).
  - intros [_ H]. apply includes_spec in H. vm_compute in H. discriminate.
  - split; [reflexivity |]. exists EmptyString, ".". reflexivity.
Defined.

(** C8, as the claim has it, fails: an error with code [ValidationError]
    whose message contains [No updates are to be performed] and also
    [does not exist] is classified as "does not exist" first, so
    [createOrUpdate] submits a create request and enters the polling
    loop. *)
Lemma createOrUpdate_up_to_date_yet_polls :
  let err := Sample.validation_error
               "Stack does not exist. No updates are to be performed." in
  let w := Sample.world [Reject err] [Resolve tt] [Resolve (Sample.one_stack [])]
             [Sample.events [Sample.event 11 "a" Sample.stack_type "CREATE_COMPLETE"]] in
  Code err = Some "ValidationError"
  ∧ occurs_in "No updates are to be performed" (message err)
  ∧ SdkV3.stackIsUpToDate err = true
  ∧ calls (snd (SdkV3.createOrUpdate "s" "t" [] 10 w))
    = [ CallUpdateStack (SdkV3.stackInput "s" "t" []);
        CallCreateStack "DELETE" (SdkV3.stackInput "s" "t" []);
        CallLogStackAction 10 "Creating new stack";
        CallDescribeStacks "s";
        CallSleep 1500;
        CallDescribeStackEvents (Some "stack-id");
        CallLogEvent (Sample.event 11 "a" Sample.stack_type "CREATE_COMPLETE");
        CallConsoleLog "========" ].
Proof.
  intros err w. split; [reflexivity |]. split; [| split].
  - exists "Stack does not exist. ", ".". reflexivity.
  - vm_compute. reflexivity.
  - vm_compute. reflexivity.
Qed.

(** ** [getOutputs] *)

Section GetOutputsFacts.
Import SdkV3.

Lemma kept_value k v v' o : kept k v o → kept k v' o → v = v'.
Proof. intros (_ & H & _) (_ & H' & _). congruence. Qed.

(** What the callback of [getOutputs] does to the entry of key [k]. *)
Lemma add_output_lookup (m : gmap string string) o k :
  (∃ v, kept k v o ∧ add_output m o !! k = Some v)
  ∨ ((∀ v, ¬ kept k v o) ∧ add_output m o !! k = m !! k).
Proof.
  unfold add_output, kept, Js.truthy, Js.set_property.
  destruct (OutputKey o) as [k'|]; [| right; split; [intros v [? _]; done | done]].
  destruct (OutputValue o) as [v'|];
    [| right; split; [intros v (_ & ? & _); done | by rewrite andb_false_r]].
  destruct (String.eqb_spec k' EmptyString) as [-> | Hk]; simpl.
  { right. split; [| done]. intros v ([= <-] & _ & Hne & _). done. }
  destruct (String.eqb_spec v' EmptyString) as [-> | Hv]; simpl.
  { right. split; [| done]. intros v (_ & [= <-] & _ & Hne & _). done. }
  destruct (String.eqb_spec k' "__proto__") as [-> | Hp].
  { right. split; [| done]. intros v ([= <-] & _ & _ & _ & Hne). done. }
  destruct (decide (k' = k)) as [-> | Hkk].
  - left. exists v'. by rewrite lookup_insert_eq.
  - right. rewrite lookup_insert_ne by done. split; [| done].
    intros v ([= ?] & _). done.
Qed.

Lemma last_kept_snoc_kept os o k v v' :
  kept k v' o → last_kept (os ++ [o]) k v ↔ v = v'.
Proof.
  intros Hk. split.
  - intros (before & o2 & after & Heq & Hk2 & Hafter).
    destruct after as [|x after _] using rev_ind.
    + apply app_inj_tail in Heq as [_ <-]. by eapply kept_value.
    + rewrite app_comm_cons, app_assoc in Heq.
      apply app_inj_tail in Heq as [_ <-].
      destruct (Hafter o v'); [| done]. apply in_app_iff. right. by left.
  - intros ->. exists os, o, []. split; [done |]. split; [done |]. by intros o' v'' [].
Qed.

Lemma last_kept_snoc_other os o k v :
  (∀ v', ¬ kept k v' o) → last_kept (os ++ [o]) k v ↔ last_kept os k v.
Proof.
  intros Hno. split.
  - intros (before & o2 & after & Heq & Hk2 & Hafter).
    destruct after as [|x after _] using rev_ind.
    + apply app_inj_tail in Heq as [_ <-]. by destruct (Hno v).
    + rewrite app_comm_cons, app_assoc in Heq.
      apply app_inj_tail in Heq as [-> <-].
      exists before, o2, after. split; [done |]. split; [done |].
      intros o' v' Hin. apply Hafter, in_app_iff. by left.
  - intros (before & o2 & after & -> & Hk2 & Hafter).
    exists before, o2, (after ++ [o]).
    split; [by rewrite <- app_assoc |]. split; [done |].
    intros o' v' Hin. apply in_app_iff in Hin as [Hin | [<- | []]];
      [by apply Hafter | apply Hno].
Qed.

Lemma fold_add_output_lookup os (m : gmap string string) k v :
  fold_left add_output os m !! k = Some v
  ↔ last_kept os k v
    ∨ (m !! k = Some v ∧ ∀ o' v', In o' os → ¬ kept k v' o').
Proof.
  induction os as [|o os IH] using rev_ind.
  - simpl. split.
    + intros H. right. split; [done |]. by intros o' v' [].
    + intros [(before & o2 & after & Heq & _) | [H _]]; [| done].
      by destruct before.
  - rewrite fold_left_app. simpl.
    destruct (add_output_lookup (fold_left add_output os m) o k)
      as [(v' & Hk & ->) | (Hno & ->)].
    + rewrite (last_kept_snoc_kept _ _ _ _ _ Hk). split.
      * intros [= ->]. by left.
      * intros [-> | [_ Hnone]]; [done |].
        destruct (Hnone o v'); [| done]. apply in_app_iff. right. by left.
    + rewrite IH, (last_kept_snoc_other _ _ _ _ Hno). split.
      * intros [H | [H Hnone]]; [by left |]. right. split; [done |].
        intros o' v' Hin. apply in_app_iff in Hin as [Hin | [<- | []]];
          [by apply Hnone | apply Hno].
      * intros [H | [H Hnone]]; [by left |]. right. split; [done |].
        intros o' v' Hin. apply Hnone, in_app_iff. by left.
Qed.

Lemma last_kept_unique_keys os k v :
  NoDup (map OutputKey os) →
  last_kept os k v ↔ ∃ o, In o os ∧ kept k v o.
Proof.
  intros Hnd. split.
  - intros (before & o & after & -> & Hk & _). exists o. split; [| done].
    apply in_app_iff. right. by left.
  - intros (o & Hin & Hk). apply in_split in Hin as (before & after & ->).
    exists before, o, after. split; [done |]. split; [done |].
    intros o' v' Hin' Hk'.
    rewrite map_app in Hnd. apply NoDup_app in Hnd as (_ & _ & Hnd).
    simpl in Hnd. apply NoDup_cons in Hnd as [Hnot _]. apply Hnot.
    destruct Hk as [-> _], Hk' as [<- _].
    apply list_elem_of_In, in_map_iff. by exists o'.
Qed.

End GetOutputsFacts.

(** C9, as the code has it: when the lookup resolves, [getOutputs] returns
    a mapping and does not throw.  With exactly one stack record that has
    an outputs list, the mapping holds [k ↦ v] exactly when [v] is the value
    of the last output whose key [k] and value are both present and not
    empty and whose key is not [__proto__]; when no key is listed twice
    these are exactly the outputs with a non-empty key other than
    [__proto__] and a non-empty value.  With one record without outputs
    list, and with no record or more than one, the mapping is empty. *)
Theorem getOutputs_returns_kept_outputs
    (name : string) (w : World) (response : DescribeStacksOutput)
    (qs : list (Reply DescribeStacksOutput)) :
  describeStacks_q w = Resolve response :: qs →
  ∃ m : gmap string string,
    SdkV3.getOutputs name w
    = (Ret m, set_describeStacks_q qs (record [CallDescribeStacks name] w))
    ∧ (∀ s os, Stacks response = Some [s] → Outputs s = Some os →
         (∀ k v, m !! k = Some v ↔ last_kept os k v)
         ∧ (NoDup (map OutputKey os) →
            ∀ k v, m !! k = Some v ↔ ∃ o, In o os ∧ kept k v o))
    ∧ (∀ s, Stacks response = Some [s] → Outputs s = None → m = ∅)
    ∧ (List.length (default [] (Stacks response)) ≠ 1%nat → m = ∅).
Proof.
  intros Hq. unfold SdkV3.getOutputs, mbind, M_bind, describeStacks, gateway.
  rewrite Hq. eexists. split; [reflexivity |].
  split; [| split].
  - intros s os -> ->.
    assert (Hl : ∀ k v, fold_left SdkV3.add_output os ∅ !! k = Some v ↔ last_kept os k v).
    { intros k v. rewrite fold_add_output_lookup, lookup_empty. split; [| by left].
      by intros [H | [H _]]. }
    split; [done |]. intros Hnd k v. by rewrite Hl, last_kept_unique_keys.
  - by intros s -> ->.
  - destruct (Stacks response) as [[|s [|s' l]]|]; done.
Qed.

Lemma getOutputs_returns_kept_outputs_witness :
  ∃ m : gmap string string,
    SdkV3.getOutputs "s"
      (Sample.world [] []
         [Resolve (Sample.one_stack [Sample.output "Role" "arn:aws:iam::123:role/x"])] [])
    = (Ret m,
       set_describeStacks_q []
         (record [CallDescribeStacks "s"]
            (Sample.world [] []
               [Resolve (Sample.one_stack [Sample.output "Role" "arn:aws:iam::123:role/x"])]
               [])))
    ∧ m !! "Role" = Some "arn:aws:iam::123:role/x".
Proof.
  destruct (getOutputs_returns_kept_outputs "s"
              (Sample.world [] []
                 [Resolve (Sample.one_stack [Sample.output "Role" "arn:aws:iam::123:role/x"])]
                 [])
              (Sample.one_stack [Sample.output "Role" "arn:aws:iam::123:role/x"]) []
              eq_refl) as (m & Hm & Hone & _).
  exists m. split; [exact Hm |].
  apply (proj1 (Hone _ _ eq_refl eq_refl)).
  exists [], (Sample.output "Role" "arn:aws:iam::123:role/x"), [].
  repeat split; done.
Defined.

(** An assignment under the key [__proto__] stores nothing, under any
    other key it stores the value. *)
Lemma getOutputs_drops_proto_key :
  fst (SdkV3.getOutputs "s"
         (Sample.world [] []
            [Resolve (Sample.one_stack
                        [Sample.output "__proto__" "x"; Sample.output "Role" "r"])] []))
  = Ret {[ "Role" := "r" ]}.
Proof. by vm_compute. Qed.

(** C9, as the claim has it, fails: an output whose value is the empty
    string has a key and a value, and [getOutputs] leaves it out. *)
Lemma getOutputs_drops_empty_value :
  let note := {| OutputKey := Some "Note"; OutputValue := Some EmptyString |} in
  let w := Sample.world [] []
             [Resolve (Sample.one_stack
                         [Sample.output "Role" "arn:aws:iam::123:role/x"; note])] [] in
  In note [Sample.output "Role" "arn:aws:iam::123:role/x"; note]
  ∧ is_Some (OutputKey note) ∧ is_Some (OutputValue note)
  ∧ ∃ m : gmap string string,
      fst (SdkV3.getOutputs "s" w) = Ret m
      ∧ m !! "Note" = None
      ∧ m = {[ "Role" := "arn:aws:iam::123:role/x" ]}.
Proof.
  intros note w. split; [right; by left |]. split; [by eexists |]. split; [by eexists |].
  eexists. split; [reflexivity |]. split; by vm_compute.
Qed.

(** ** The two versions of the class *)

Section Versions.

Lemma poll_loop_agree q stackId start vars tr :
  SdkV2.poll_loop q stackId start vars tr = SdkV3.poll_loop q stackId start vars tr.
Proof.
  revert vars tr; induction q as [|[response | err] q IH]; intros vars tr; simpl.
  - done.
  - change (SdkV2.finished (status vars)) with (SdkV3.finished (status vars)).
    destruct (SdkV3.finished (status vars)); [done |].
    change (SdkV2.process_events start (default [] (StackEvents response)) vars
              (tr ++ [CallSleep 1500; CallDescribeStackEvents stackId]))
      with (SdkV3.process_events start (default [] (StackEvents response)) vars
              (tr ++ [CallSleep 1500; CallDescribeStackEvents stackId])).
    destruct (SdkV3.process_events _ _ _ _). apply IH.
  - done.
Qed.

Lemma fmtTime_agree toISOString date :
  SdkV2.fmtTime toISOString date = SdkV3.fmtTime toISOString date.
Proof. reflexivity. Qed.

End Versions.

(** C10: on the same gateway replies and the same arguments, the SDK v2
    class and the SDK v3 class make the same calls in the same order, print
    the same lines, and end in the same way (return, throw the same error,
    or wait for ever) in [waitFor]; [getOutputs] returns the same
    mapping. *)
Theorem sdk_versions_agree
    (toISOString : Z → string) (wrap : string → nat → string → string)
    (name success : string) (start : Z) (w : World) (c : Call) :
  SdkV2.waitFor name success start w = SdkV3.waitFor name success start w
  ∧ SdkV2.getOutputs name w = SdkV3.getOutputs name w
  ∧ SdkV2.console_of toISOString wrap name c
    = SdkV3.console_of toISOString wrap name c.
Proof.
  split; [| split].
  - unfold SdkV2.waitFor, SdkV3.waitFor, mbind, M_bind.
    change (SdkV2.getStackId name w) with (SdkV3.getStackId name w).
    destruct (SdkV3.getStackId name w) as [[sid | e |] w1]; [| done | done].
    unfold SdkV2.while_not_finished, SdkV3.while_not_finished.
    by rewrite poll_loop_agree.
  - reflexivity.
  - destruct c; reflexivity.
Qed.


(** * Further properties of the code *)

(** ** One iteration of the loop *)

Section IterationFacts.
Import SdkV3.

Lemma filter_nothing {A} (f : A → bool) (l : list A) :
  (∀ x, In x l → f x = false) → List.filter f l = [].
Proof.
  induction l as [|a l IH]; intros H; simpl; [done |].
  rewrite (H a) by (by left). apply IH. intros x Hx. apply H. by right.
Qed.

Lemma fold_on_event_status_rev (l : list StackEvent) vars tr :
  status (fst (fold_left on_event (rev l) (vars, tr)))
  = match List.find is_stack_event l with
    | Some e => event_status e
    | None => status vars
    end.
Proof.
  induction l as [|a l IH]; simpl; [done |].
  rewrite fold_left_app. simpl.
  destruct (fold_left on_event (rev l) (vars, tr)) as [v t]. simpl in *.
  unfold is_stack_event at 1. by destruct (bool_decide _).
Qed.

(** The status an iteration leaves is the initial one or that of a stack
    event it printed. *)
Lemma fold_on_event_status_origin (es : list StackEvent) vars tr :
  status (fst (fold_left on_event es (vars, tr))) = status vars
  ∨ ∃ e, In e es ∧ is_stack_event e = true
         ∧ status (fst (fold_left on_event es (vars, tr))) = event_status e.
Proof.
  revert vars tr; induction es as [|a es IH]; intros vars tr; simpl; [by left |].
  destruct (IH {| shown := {[EventId a]} ∪ shown vars;
                  status := if bool_decide (ResourceType a = Some "AWS::CloudFormation::Stack")
                            then Js.or_empty (ResourceStatus a) else status vars |}
              (tr ++ [CallLogEvent a])) as [H | (e & Hin & Hs & H)].
  - rewrite H. simpl. destruct (bool_decide _) eqn:Hb; [| by left].
    right. exists a. split; [by left |]. done.
  - right. exists e. split; [by right | done].
Qed.

Lemma process_events_nothing start events vars tr :
  (∀ e, In e events → is_new start (shown vars) e = false) →
  process_events start events vars tr = (vars, tr).
Proof.
  intros H. unfold process_events, new_events. by rewrite filter_nothing.
Qed.

End IterationFacts.

(** X1: after one iteration the tracked status is the status of the first
    event of the reply (the newest, as the gateway lists them) that is new
    and belongs to the stack itself; when the reply has no such event the
    status stays as it was. *)
Theorem iteration_tracks_newest_stack_event
    (start : Z) (events : list StackEvent) (vars : LoopVars) (tr : list Call) :
  status (fst (SdkV3.process_events start events vars tr))
  = match List.find is_stack_event
            (List.filter (SdkV3.is_new start (shown vars)) events) with
    | Some e => event_status e
    | None => status vars
    end.
Proof.
  unfold SdkV3.process_events, SdkV3.new_events.
  apply fold_on_event_status_rev.
Qed.

(** X2: handing the same reply to the loop a second time prints nothing and
    leaves the loop variables as the first time left them. *)
Theorem repeated_reply_changes_nothing
    (start : Z) (events : list StackEvent) (vars : LoopVars) (tr tr' : list Call) :
  SdkV3.process_events start events
    (fst (SdkV3.process_events start events vars tr)) tr'
  = (fst (SdkV3.process_events start events vars tr), tr').
Proof.
  apply process_events_nothing. intros e Hin.
  rewrite process_events_shown. unfold SdkV3.is_new.
  destruct (Js.date_ge (Timestamp e) start) eqn:Hge; [| done]. simpl.
  apply negb_false_iff, bool_decide_eq_true.
  destruct (decide (EventId e ∈ shown vars)) as [Hs | Hs].
  - apply elem_of_union. by right.
  - apply elem_of_union. left.
    apply elem_of_list_to_set, list_elem_of_In, in_map_iff. exists e.
    split; [done |]. by apply in_new_events.
Qed.

(** X3: a reply all of whose events are older than [start], lack a
    timestamp or are already shown prints nothing and changes neither the
    [shown] set nor the tracked status, even when it lists an event of the
    stack with a terminal status; the loop goes on to the next reply. *)
Theorem stale_reply_is_ignored
    (start : Z) (events : list StackEvent) (vars : LoopVars) (tr : list Call) :
  (∀ e, In e events →
        (∃ t, Timestamp e = Some t ∧ t < start) ∨ Timestamp e = None
        ∨ EventId e ∈ shown vars) →
  SdkV3.process_events start events vars tr = (vars, tr)
  ∧ ∀ q stackId,
      SdkV3.finished (status vars) = false →
      SdkV3.poll_loop (Resolve {| StackEvents := Some events |} :: q) stackId start vars tr
      = SdkV3.poll_loop q stackId start vars
          (tr ++ [CallSleep 1500; CallDescribeStackEvents stackId]).
Proof.
  intros H.
  assert (Hnew : ∀ e, In e events → SdkV3.is_new start (shown vars) e = false).
  { intros e Hin. unfold SdkV3.is_new.
    destruct (H e Hin) as [(t & -> & Ht) | [-> | Hs]]; simpl.
    - replace (start <=? t) with false; [done |]. symmetry. apply Z.leb_gt. done.
    - done.
    - rewrite bool_decide_eq_true_2 by done. apply andb_false_r. }
  split; [by apply process_events_nothing |].
  intros q stackId Hf. rewrite poll_loop_next by done. simpl.
  by rewrite process_events_nothing.
Qed.

Lemma stale_reply_is_ignored_witness :
  SdkV3.process_events 10
    [Sample.event 5 "z" Sample.stack_type "CREATE_COMPLETE"]
    (Sample.vars "UPDATE_IN_PROGRESS") []
  = (Sample.vars "UPDATE_IN_PROGRESS", []).
Proof.
  apply (stale_reply_is_ignored 10
           [Sample.event 5 "z" Sample.stack_type "CREATE_COMPLETE"]
           (Sample.vars "UPDATE_IN_PROGRESS") []).
  intros e [<- | []]. left. exists 5. split; [reflexivity | lia].
Defined.

(** ** Whole runs of [waitFor] *)

Section RunFacts.
Import SdkV3.

Lemma getStackId_unfold name w :
  getStackId name w
  = match describeStacks_q w with
    | [] => (Hang, record [CallDescribeStacks name] w)
    | Resolve response :: qs =>
        match Stacks response with
        | Some [s] =>
            (Ret (StackId s), set_describeStacks_q qs (record [CallDescribeStacks name] w))
        | _ =>
            (Throw (mkError ("No StackId for stack " +:+ Js.dquote +:+ name +:+ " found")),
             set_describeStacks_q qs (record [CallDescribeStacks name] w))
        end
    | Reject err :: qs =>
        (Throw err, set_describeStacks_q qs (record [CallDescribeStacks name] w))
    end.
Proof.
  unfold getStackId, mbind, M_bind, describeStacks, gateway.
  destruct (describeStacks_q w) as [|[response | err] qs]; [done | | done].
  by destruct (Stacks response) as [[|s [|s' l]]|].
Qed.

Lemma waitFor_unfold name success start w :
  waitFor name success start w
  = match getStackId name w with
    | (Ret stackId, w1) =>
        match poll_loop (describeStackEvents_q w1) stackId start
                {| shown := ∅; status := EmptyString |} (calls w1) with
        | (Ret vars, q, tr) =>
            (if bool_decide (status vars ≠ success)
             then Throw (mkError ("Unexpected Stack Status " +:+ status vars))
             else Ret tt,
             record [CallConsoleLog (Js.repeat "=" 8)] (set_describeStackEvents_q q tr w1))
        | (Throw e, q, tr) => (Throw e, set_describeStackEvents_q q tr w1)
        | (Hang, q, tr) => (Hang, set_describeStackEvents_q q tr w1)
        end
    | (Throw e, w1) => (Throw e, w1)
    | (Hang, w1) => (Hang, w1)
    end.
Proof.
  unfold waitFor, mbind, M_bind, while_not_finished, emit.
  destruct (getStackId name w) as [[sid | e |] w1]; [| done | done].
  destruct (poll_loop _ _ _ _ _) as [[[vars | e |] q] tr]; [| done | done].
  by destruct (bool_decide _).
Qed.

(** What the loop hands back when it returns: the status is the initial one
    or that of a stack event it printed, and the [shown] set has grown by
    the identifiers it printed. *)
Lemma poll_loop_ret_inv q stackId start vars tr :
  ∃ ext, snd (poll_loop q stackId start vars tr) = tr ++ ext
    ∧ ∀ vars', fst (fst (poll_loop q stackId start vars tr)) = Ret vars' →
        (status vars' = status vars
         ∨ ∃ e, In (CallLogEvent e) ext ∧ is_stack_event e = true
                ∧ status vars' = event_status e)
        ∧ shown vars' = list_to_set (map EventId (logged_events ext)) ∪ shown vars.
Proof.
  revert vars tr; induction q as [|r q IH]; intros vars tr.
  - simpl. destruct (finished (status vars)); simpl.
    + exists []. split; [by rewrite app_nil_r |]. intros vars' [= <-].
      split; [by left |]. simpl. by rewrite (left_id_L ∅ (∪)).
    + eexists. split; [done |]. done.
  - destruct (finished (status vars)) eqn:Hf.
    + rewrite poll_loop_finished by done. simpl.
      exists []. split; [by rewrite app_nil_r |]. intros vars' [= <-].
      split; [by left |]. simpl. by rewrite (left_id_L ∅ (∪)).
    + destruct r as [response | err]; [| simpl; rewrite Hf; simpl; by eexists].
      rewrite poll_loop_next by done.
      set (events := default [] (StackEvents response)).
      set (tr1 := tr ++ [CallSleep 1500; CallDescribeStackEvents stackId]).
      destruct (IH (fst (process_events start events vars tr1))
                   (snd (process_events start events vars tr1)))
        as (ext & Hext & Hret).
      rewrite process_events_calls in Hext, Hret |- *. rewrite Hext. subst tr1.
      exists ([CallSleep 1500; CallDescribeStackEvents stackId]
                ++ map CallLogEvent (new_events start (shown vars) events) ++ ext).
      split; [by rewrite <- !app_assoc |].
      intros vars' Hv. destruct (Hret vars' Hv) as [Hst Hsh]. split.
      * destruct Hst as [Hst | (e & Hin & Hs & Hst)].
        -- rewrite Hst. unfold process_events.
           destruct (fold_on_event_status_origin
                       (new_events start (shown vars) events) vars
                       (tr ++ [CallSleep 1500; CallDescribeStackEvents stackId]))
             as [H | (e & Hin & Hs & H)]; [by left |].
           right. exists e. split; [| done].
           apply in_app_iff. right. apply in_app_iff. left. by apply in_map.
        -- right. exists e. split; [| done].
           apply in_app_iff. right. apply in_app_iff. by right.
      * rewrite Hsh, process_events_shown.
        change (logged_events
                  ([CallSleep 1500; CallDescribeStackEvents stackId]
                     ++ map CallLogEvent (new_events start (shown vars) events) ++ ext))
          with (logged_events
                  (map CallLogEvent (new_events start (shown vars) events) ++ ext)).
        rewrite logged_events_app, logged_events_log, map_app, list_to_set_app_L.
        by rewrite (assoc_L (∪)), (comm_L (∪) (list_to_set (map EventId (logged_events ext)))).
Qed.

Lemma finished_initial : finished EmptyString = false.
Proof. reflexivity. Qed.

(** What a normal return of [waitFor] tells. *)
Lemma waitFor_ret_inv name success start w :
  fst (waitFor name success start w) = Ret tt →
  ∃ stackId w1 vars q ext,
    getStackId name w = (Ret stackId, w1)
    ∧ poll_loop (describeStackEvents_q w1) stackId start
        {| shown := ∅; status := EmptyString |} (calls w1)
      = (Ret vars, q, calls w1 ++ ext)
    ∧ status vars = success
    ∧ calls (snd (waitFor name success start w))
      = calls w ++ CallDescribeStacks name :: ext ++ [CallConsoleLog (Js.repeat "=" 8)].
Proof.
  rewrite waitFor_unfold. destruct (getStackId_effect name w) as [Hc _].
  destruct (getStackId name w) as [[sid | e |] w1] eqn:Hid; [| done | done].
  simpl in Hc.
  destruct (poll_loop_ret_inv (describeStackEvents_q w1) sid start
              {| shown := ∅; status := EmptyString |} (calls w1)) as (ext & Hext & _).
  destruct (poll_loop _ _ _ _ _) as [[[vars | e |] q] tr] eqn:Hp; [| done | done].
  simpl in Hext. subst tr.
  destruct (bool_decide (status vars ≠ success)) eqn:Hb; [done |].
  intros _. exists sid, w1, vars, q, ext.
  apply bool_decide_eq_false in Hb.
  split; [done |]. split; [exact Hp |].
  split; [by destruct (decide (status vars = success)); [| destruct Hb] |].
  simpl. rewrite Hc, <- !app_assoc. done.
Qed.

Lemma polls_no_change ok stackId start shown ext :
  Polls ok stackId start shown ext → ∀ c, In c ext → is_change c = false.
Proof.
  induction 1 as [S | S | S events rest Hok Hrest IH]; intros c Hin.
  - destruct Hin.
  - destruct Hin as [<- | [<- | []]]; done.
  - simpl in Hin. destruct Hin as [<- | [<- | Hin]]; [done.. |].
    apply in_app_iff in Hin as [Hin | Hin]; [| by apply IH].
    apply in_map_iff in Hin as (e & <- & _). done.
Qed.

End RunFacts.

(** X4: when the lookup of the stack yields no record or more than one,
    [waitFor] throws the error [No StackId for stack ... found], which
    names the stack, right after the lookup: it does not sleep, poll or
    print. *)
Theorem waitFor_needs_one_stack
    (name success : string) (start : Z) (w : World)
    (response : DescribeStacksOutput) (qs : list (Reply DescribeStacksOutput)) :
  describeStacks_q w = Resolve response :: qs →
  List.length (default [] (Stacks response)) ≠ 1%nat →
  SdkV3.waitFor name success start w
  = (Throw (mkError ("No StackId for stack " +:+ Js.dquote +:+ name +:+ " found")),
     set_describeStacks_q qs (record [CallDescribeStacks name] w)).
Proof.
  intros Hq Hlen. rewrite waitFor_unfold, getStackId_unfold, Hq.
  destruct (Stacks response) as [[|s [|s' l]]|]; done.
Qed.

Lemma waitFor_needs_one_stack_witness :
  fst (SdkV3.waitFor "s" "UPDATE_COMPLETE" 10
         (Sample.world [] [] [Resolve {| Stacks := Some [] |}] Sample.rollback_polls))
  = Throw (mkError ("No StackId for stack " +:+ Js.dquote +:+ "s found")).
Proof.
  rewrite (waitFor_needs_one_stack "s" "UPDATE_COMPLETE" 10
             (Sample.world [] [] [Resolve {| Stacks := Some [] |}] Sample.rollback_polls)
             {| Stacks := Some [] |} [] eq_refl).
  - reflexivity.
  - simpl. lia.
Defined.

(** X5: once the lookup of the stack has succeeded, [waitFor] sleeps and
    asks for the events at least once, whatever state the stack is in: the
    tracked status starts empty. *)
Theorem waitFor_polls_at_least_once
    (name success : string) (start : Z) (w w1 : World) (stackId : option string) :
  SdkV3.getStackId name w = (Ret stackId, w1) →
  ∃ ext,
    calls_since w (snd (SdkV3.waitFor name success start w))
    = [CallDescribeStacks name; CallSleep 1500; CallDescribeStackEvents stackId] ++ ext.
Proof.
  intros Hid. destruct (getStackId_effect name w) as [Hc _].
  rewrite Hid in Hc. simpl in Hc.
  assert (Hloop : ∃ ext,
            snd (SdkV3.poll_loop (describeStackEvents_q w1) stackId start
                   {| shown := ∅; status := EmptyString |} (calls w1))
            = calls w1 ++ [CallSleep 1500; CallDescribeStackEvents stackId] ++ ext).
  { destruct (describeStackEvents_q w1) as [|[response | err] q].
    - by exists [].
    - rewrite poll_loop_next by done.
      destruct (poll_loop_calls (λ _, True) q stackId start
                  (fst (SdkV3.process_events start (default [] (StackEvents response))
                          {| shown := ∅; status := EmptyString |}
                          (calls w1 ++ [CallSleep 1500; CallDescribeStackEvents stackId])))
                  (snd (SdkV3.process_events start (default [] (StackEvents response))
                          {| shown := ∅; status := EmptyString |}
                          (calls w1 ++ [CallSleep 1500; CallDescribeStackEvents stackId]))))
        as (ext & -> & _); [apply replies_ok_True |].
      rewrite process_events_calls. eexists. by rewrite <- !app_assoc.
    - by exists []. }
  destruct Hloop as [ext Hext].
  rewrite waitFor_unfold, Hid.
  destruct (SdkV3.poll_loop _ _ _ _ _) as [[[vars | e |] q] tr]; simpl in Hext; subst tr.
  - exists (ext ++ [CallConsoleLog (Js.repeat "=" 8)]).
    apply calls_since_app.
    destruct (bool_decide _); simpl; rewrite Hc, <- !app_assoc; done.
  - exists ext. apply calls_since_app. simpl. rewrite Hc, <- !app_assoc. done.
  - exists ext. apply calls_since_app. simpl. rewrite Hc, <- !app_assoc. done.
Qed.

Lemma waitFor_polls_at_least_once_witness :
  ∃ ext,
    calls_since Sample.rollback_world
      (snd (SdkV3.waitFor "s" "UPDATE_COMPLETE" 10 Sample.rollback_world))
    = [CallDescribeStacks "s"; CallSleep 1500; CallDescribeStackEvents (Some "stack-id")]
        ++ ext.
Proof.
  apply (waitFor_polls_at_least_once "s" "UPDATE_COMPLETE" 10 Sample.rollback_world
           (snd (SdkV3.getStackId "s" Sample.rollback_world))).
  vm_compute. reflexivity.
Defined.

(** X6: [waitFor] returns normally only after it has printed an event of
    the stack itself whose status is the expected one, and only for an
    expected status that ends with one of the seven terminal values. *)
Theorem waitFor_returns_after_expected_event
    (name success : string) (start : Z) (w : World) :
  fst (SdkV3.waitFor name success start w) = Ret tt →
  ends_with_one_of SdkV3.finished_alternatives success
  ∧ ∃ e, In e (logged_events (calls_since w (snd (SdkV3.waitFor name success start w))))
         ∧ is_stack_event e = true ∧ event_status e = success.
Proof.
  intros Hret.
  destruct (waitFor_ret_inv name success start w Hret)
    as (sid & w1 & vars & q & ext & Hid & Hloop & Hst & Hc).
  assert (Hfin : SdkV3.finished success = true).
  { rewrite <- Hst. by eapply poll_loop_ret. }
  split; [by apply match_alts_at_end_spec |].
  destruct (poll_loop_ret_inv (describeStackEvents_q w1) sid start
              {| shown := ∅; status := EmptyString |} (calls w1))
    as (ext' & Hext' & Hinv).
  rewrite Hloop in Hext', Hinv. simpl in Hext', Hinv.
  apply app_inv_head in Hext'. subst ext'.
  destruct (Hinv vars eq_refl) as [[Hs | (e & Hin & Hs & He)] _].
  - simpl in Hs. rewrite Hst in Hs. rewrite Hs in Hfin.
    by rewrite finished_initial in Hfin.
  - exists e. split; [| split; [done | congruence]].
    rewrite (calls_since_app _ _ _ Hc). apply in_logged_events.
    right. apply in_app_iff. by left.
Qed.

Lemma waitFor_returns_after_expected_event_witness :
  ends_with_one_of SdkV3.finished_alternatives "CREATE_COMPLETE"
  ∧ ∃ e, In e (logged_events
                 (calls_since
                    (Sample.world [] [] [Resolve (Sample.one_stack [])] Sample.create_polls)
                    (snd (SdkV3.waitFor "s" "CREATE_COMPLETE" 10
                            (Sample.world [] [] [Resolve (Sample.one_stack [])]
                               Sample.create_polls)))))
         ∧ is_stack_event e = true ∧ event_status e = "CREATE_COMPLETE".
Proof.
  apply (waitFor_returns_after_expected_event "s" "CREATE_COMPLETE" 10
           (Sample.world [] [] [Resolve (Sample.one_stack [])] Sample.create_polls)).
  vm_compute. reflexivity.
Defined.

Section ScriptFacts.
Import SdkV3.

(** A queue all of whose replies resolve and list no event of the stack
    with a finished status never lets the loop return. *)
Lemma poll_loop_hangs q stackId start vars tr :
  (∀ r, In r q →
        ∃ response, r = Resolve response
          ∧ ∀ e, In e (default [] (StackEvents response)) →
                 is_stack_event e = true → finished (event_status e) = false) →
  finished (status vars) = false →
  ∃ tr', poll_loop q stackId start vars tr = (Hang, [], tr').
Proof.
  revert vars tr; induction q as [|r q IH]; intros vars tr Hq Hf.
  - simpl. rewrite Hf. by eexists.
  - destruct (Hq r) as (response & -> & Hev); [by left |].
    rewrite poll_loop_next by done. apply IH.
    + intros r Hr. apply Hq. by right.
    + unfold process_events.
      destruct (fold_on_event_status_origin
                  (new_events start (shown vars) (default [] (StackEvents response))) vars
                  (tr ++ [CallSleep 1500; CallDescribeStackEvents stackId]))
        as [-> | (e & Hin & Hs & ->)]; [done |].
      apply Hev; [| done]. by apply in_new_events in Hin as [Hin _].
Qed.

(** Replies behind those the loop reads do not change a run that settles;
    they stay in the queue. *)
Lemma poll_loop_more_replies q more stackId start vars tr :
  fst (fst (poll_loop q stackId start vars tr)) ≠ Hang →
  poll_loop (q ++ more) stackId start vars tr
  = (fst (fst (poll_loop q stackId start vars tr)),
     snd (fst (poll_loop q stackId start vars tr)) ++ more,
     snd (poll_loop q stackId start vars tr)).
Proof.
  revert vars tr; induction q as [|r q IH]; intros vars tr.
  - destruct (finished (status vars)) eqn:Hf.
    + intros _. by rewrite !poll_loop_finished.
    + simpl. by rewrite Hf.
  - destruct (finished (status vars)) eqn:Hf.
    + intros _. by rewrite !poll_loop_finished.
    + destruct r as [response | err].
      * change ((Resolve response :: q) ++ more) with (Resolve response :: (q ++ more)).
        rewrite !poll_loop_next by done. apply IH.
      * intros _. simpl. by rewrite Hf.
Qed.

End ScriptFacts.

(** X7: the loop has no cap: when the lookup of the stack succeeds and
    every reply to [describeStackEvents] resolves without an event of the
    stack whose status ends with a terminal value, [waitFor] reads all the
    replies and is still waiting. *)
Theorem waitFor_keeps_waiting
    (name success : string) (start : Z) (w w1 : World) (stackId : option string) :
  SdkV3.getStackId name w = (Ret stackId, w1) →
  (∀ r, In r (describeStackEvents_q w) →
        ∃ response, r = Resolve response
          ∧ ∀ e, In e (default [] (StackEvents response)) →
                 is_stack_event e = true →
                 ¬ ends_with_one_of SdkV3.finished_alternatives (event_status e)) →
  fst (SdkV3.waitFor name success start w) = Hang
  ∧ describeStackEvents_q (snd (SdkV3.waitFor name success start w)) = [].
Proof.
  intros Hid Hq. destruct (getStackId_effect name w) as [_ Hqe].
  rewrite Hid in Hqe. simpl in Hqe.
  rewrite waitFor_unfold, Hid.
  destruct (poll_loop_hangs (describeStackEvents_q w1) stackId start
              {| shown := ∅; status := EmptyString |} (calls w1)) as [tr' ->]; [| done | done].
  intros r Hr. rewrite Hqe in Hr.
  destruct (Hq r Hr) as (response & -> & Hev). exists response. split; [done |].
  intros e Hin Hs. destruct (SdkV3.finished (event_status e)) eqn:Hf; [| done].
  destruct (Hev e Hin Hs). by apply match_alts_at_end_spec.
Qed.

Lemma waitFor_keeps_waiting_witness :
  fst (SdkV3.waitFor "s" "CREATE_COMPLETE" 10
         (Sample.world [] [] [Resolve (Sample.one_stack [])]
            [Sample.events [Sample.event 11 "a" Sample.stack_type "CREATE_IN_PROGRESS"]]))
  = Hang.
Proof.
  apply (waitFor_keeps_waiting "s" "CREATE_COMPLETE" 10
           (Sample.world [] [] [Resolve (Sample.one_stack [])]
              [Sample.events [Sample.event 11 "a" Sample.stack_type "CREATE_IN_PROGRESS"]])
           (snd (SdkV3.getStackId "s"
                   (Sample.world [] [] [Resolve (Sample.one_stack [])]
                      [Sample.events
                         [Sample.event 11 "a" Sample.stack_type "CREATE_IN_PROGRESS"]])))
           (Some "stack-id")).
  - vm_compute. reflexivity.
  - intros r [<- | []]. eexists. split; [reflexivity |].
    intros e [<- | []] _ H. apply match_alts_at_end_spec in H.
    vm_compute in H. discriminate.
Defined.

(** X8: a run of [waitFor] that returns or throws reads no reply behind
    the one that settled it: with more replies queued behind, the run ends
    in the same way with the same calls, and the added replies are still in
    the queue. *)
Theorem waitFor_leaves_later_replies
    (name success : string) (start : Z) (w : World)
    (more : list (Reply DescribeStackEventsOutput)) :
  fst (SdkV3.waitFor name success start w) ≠ Hang →
  SdkV3.waitFor name success start (with_more_replies more w)
  = (fst (SdkV3.waitFor name success start w),
     with_more_replies more (snd (SdkV3.waitFor name success start w))).
Proof.
  rewrite !waitFor_unfold, !getStackId_unfold.
  change (describeStacks_q (with_more_replies more w)) with (describeStacks_q w).
  destruct (describeStacks_q w) as [|[response | err] qs]; [done | | done].
  destruct (Stacks response) as [[|s [|s' l]]|]; try done.
  cbn [describeStackEvents_q set_describeStacks_q record with_more_replies
       set_describeStackEvents_q calls].
  intros Hne.
  rewrite poll_loop_more_replies.
  - destruct (SdkV3.poll_loop _ _ _ _ _) as [[[vars | e |] q] tr]; simpl; try done.
  - destruct (SdkV3.poll_loop _ _ _ _ _) as [[[vars | e |] q] tr]; simpl in *; done.
Qed.

Lemma waitFor_leaves_later_replies_witness :
  describeStackEvents_q
    (snd (SdkV3.waitFor "s" "CREATE_COMPLETE" 10
            (with_more_replies [Sample.events []]
               (Sample.world [] [] [Resolve (Sample.one_stack [])] Sample.create_polls))))
  = [Sample.events []].
Proof.
  rewrite (waitFor_leaves_later_replies "s" "CREATE_COMPLETE" 10
             (Sample.world [] [] [Resolve (Sample.one_stack [])] Sample.create_polls)
             [Sample.events []]).
  - vm_compute. reflexivity.
  - vm_compute. discriminate.
Defined.

(** X9: when the loop returns, its [shown] set is the set it started with
    together with the identifiers of exactly the events it printed. *)
Theorem loop_shows_what_it_printed
    (q q' : list (Reply DescribeStackEventsOutput)) (stackId : option string)
    (start : Z) (vars vars' : LoopVars) (tr tr' : list Call) :
  SdkV3.poll_loop q stackId start vars tr = (Ret vars', q', tr') →
  shown vars'
  = list_to_set (map EventId (logged_events (drop (List.length tr) tr'))) ∪ shown vars.
Proof.
  intros Hp.
  destruct (poll_loop_ret_inv q stackId start vars tr) as (ext & Hext & Hinv).
  rewrite Hp in Hext, Hinv. simpl in Hext, Hinv. subst tr'.
  rewrite drop_app_length. by apply Hinv.
Qed.

Lemma loop_shows_what_it_printed_witness :
  shown (match fst (fst (SdkV3.poll_loop Sample.create_polls (Some "stack-id") 10
                           (Sample.vars EmptyString) [])) with
         | Ret vars' => vars'
         | _ => Sample.vars EmptyString
         end)
  = list_to_set
      (map EventId
         (logged_events
            (drop (List.length (@nil Call))
               (snd (SdkV3.poll_loop Sample.create_polls (Some "stack-id") 10
                       (Sample.vars EmptyString) [])))))
    ∪ shown (Sample.vars EmptyString).
Proof.
  apply (loop_shows_what_it_printed Sample.create_polls
           (snd (fst (SdkV3.poll_loop Sample.create_polls (Some "stack-id") 10
                        (Sample.vars EmptyString) [])))
           (Some "stack-id") 10).
  vm_compute. reflexivity.
Defined.

(** X10: every event a run of [waitFor] hands to [logEvent] has a
    timestamp, so [logEvent] renders a line for it and [fmtTime] is never
    called on an undefined date. *)
Theorem waitFor_can_render_what_it_logs
    (toISOString : Z → string) (wrap : string → nat → string → string)
    (name success : string) (start : Z) (w : World) (e : StackEvent) :
  In (CallLogEvent e) (calls_since w (snd (SdkV3.waitFor name success start w))) →
  ∃ t, Timestamp e = Some t
       ∧ SdkV3.console_of toISOString wrap name (CallLogEvent e)
         = Some (Js.join " "
                   [ SdkV3.fmtTime toISOString t;
                     Js.or_empty (ResourceStatus e);
                     Js.or_empty (ResourceType e);
                     Js.dquote +:+ default "undefined" (LogicalResourceId e) +:+ Js.dquote;
                     SdkV3.fmtReason wrap (ResourceStatusReason e) ]).
Proof.
  intros Hin.
  destruct (waitFor_since (λ _, True) name success start w (replies_ok_True _))
    as (sid & ext & tail & Hc & Hp & Htail).
  rewrite Hc in Hin. destruct Hin as [Hin | Hin]; [done |].
  apply in_app_iff in Hin as [Hin | Hin].
  - destruct (polls_fresh _ _ _ _ _ Hp e Hin) as [_ Hge].
    destruct (Timestamp e) as [t|] eqn:Ht; [| done].
    exists t. split; [done |]. simpl. unfold SdkV3.logEvent. by rewrite Ht.
  - destruct Htail as [-> | ->]; [done |]. by destruct Hin as [Hin | []].
Qed.

Lemma waitFor_can_render_what_it_logs_witness :
  ∃ t, Timestamp (Sample.event 12 "b" Sample.role_type "UPDATE_COMPLETE") = Some t
       ∧ SdkV3.console_of (λ _, "2020-01-01T16:27:28.000Z") (λ text _ _, text) "s"
           (CallLogEvent (Sample.event 12 "b" Sample.role_type "UPDATE_COMPLETE"))
         = Some (Js.join " "
                   [ SdkV3.fmtTime (λ _, "2020-01-01T16:27:28.000Z") t;
                     "UPDATE_COMPLETE"; "AWS::IAM::Role";
                     Js.dquote +:+ "SomeRole" +:+ Js.dquote;
                     EmptyString ]).
Proof.
  apply (waitFor_can_render_what_it_logs (λ _, "2020-01-01T16:27:28.000Z")
           (λ text _ _, text) "s" "UPDATE_COMPLETE" 10 Sample.rollback_world
           (Sample.event 12 "b" Sample.role_type "UPDATE_COMPLETE")).
  vm_compute. tauto.
Defined.

(** X11: [waitFor] only observes: it submits no update, create or delete
    request, and leaves the replies queued for those operations
    untouched. *)
Theorem waitFor_submits_no_change
    (name success : string) (start : Z) (w : World) :
  updateStack_q (snd (SdkV3.waitFor name success start w)) = updateStack_q w
  ∧ createStack_q (snd (SdkV3.waitFor name success start w)) = createStack_q w
  ∧ deleteStack_q (snd (SdkV3.waitFor name success start w)) = deleteStack_q w
  ∧ ∀ c, In c (calls_since w (snd (SdkV3.waitFor name success start w))) →
         is_change c = false.
Proof.
  assert (Hq : updateStack_q (snd (SdkV3.waitFor name success start w)) = updateStack_q w
               ∧ createStack_q (snd (SdkV3.waitFor name success start w)) = createStack_q w
               ∧ deleteStack_q (snd (SdkV3.waitFor name success start w)) = deleteStack_q w).
  { rewrite waitFor_unfold, getStackId_unfold.
    destruct (describeStacks_q w) as [|[response | err] qs]; [done | | done].
    destruct (Stacks response) as [[|s [|s' l]]|]; try done.
    destruct (SdkV3.poll_loop _ _ _ _ _) as [[[vars | e |] q] tr]; done. }
  destruct Hq as (Hu & Hc & Hd). repeat split; try done.
  intros c Hin.
  destruct (waitFor_since (λ _, True) name success start w (replies_ok_True _))
    as (sid & ext & tail & Hcalls & Hp & Htail).
  rewrite Hcalls in Hin. destruct Hin as [<- | Hin]; [done |].
  apply in_app_iff in Hin as [Hin | Hin].
  - by eapply polls_no_change.
  - destruct Htail as [-> | ->]; [done |]. by destruct Hin as [<- | []].
Qed.

(** X12: [getOutputs] makes exactly one call, the lookup of the stack, and
    prints nothing, whatever the reply is; it throws exactly when the
    gateway rejects the lookup, and then that same error. *)
Theorem getOutputs_makes_one_lookup (name : string) (w : World) :
  calls_since w (snd (SdkV3.getOutputs name w)) = [CallDescribeStacks name]
  ∧ describeStackEvents_q (snd (SdkV3.getOutputs name w)) = describeStackEvents_q w
  ∧ ∀ err, fst (SdkV3.getOutputs name w) = Throw err
           ↔ ∃ qs, describeStacks_q w = Reject err :: qs.
Proof.
  unfold SdkV3.getOutputs, mbind, M_bind, describeStacks, gateway.
  destruct (describeStacks_q w) as [|[response | err] qs]; simpl.
  - split; [by apply calls_since_app |]. split; [done |].
    intros err. split; [done | by intros [qs ?]].
  - split; [by apply calls_since_app |]. split; [done |].
    intros err. split; [done | by intros [qs' ?]].
  - split; [by apply calls_since_app |]. split; [done |].
    intros err'. split.
    + intros [= ->]. by exists qs.
    + intros [qs' [= -> _]]. done.
Qed.

(** X13: no key and no value of the mapping [getOutputs] returns is the
    empty string, and each entry comes from an output of the one stack
    record. *)
Theorem getOutputs_has_no_empty_entry
    (name : string) (w : World) (m : gmap string string) (k v : string) :
  fst (SdkV3.getOutputs name w) = Ret m →
  m !! k = Some v →
  k ≠ EmptyString ∧ v ≠ EmptyString
  ∧ ∃ response qs s os o,
      describeStacks_q w = Resolve response :: qs
      ∧ Stacks response = Some [s] ∧ Outputs s = Some os
      ∧ In o os ∧ OutputKey o = Some k ∧ OutputValue o = Some v.
Proof.
  unfold SdkV3.getOutputs, mbind, M_bind, describeStacks, gateway.
  destruct (describeStacks_q w) as [|[response | err] qs]; simpl; [done | | done].
  intros [= <-] Hm.
  destruct (Stacks response) as [[|s [|s' l]]|] eqn:Hs; try done.
  destruct (Outputs s) as [os|] eqn:Ho; [| done].
  apply fold_add_output_lookup in Hm as [Hk | [Hm _]]; [| done].
  destruct Hk as (before & o & after & -> & (Hkey & Hval & Hk & Hv & _) & _).
  split; [done |]. split; [done |].
  exists response, qs, s, (before ++ o :: after), o.
  repeat split; try done. apply in_app_iff. right. by left.
Qed.

Lemma getOutputs_has_no_empty_entry_witness :
  "Role" ≠ EmptyString ∧ "arn:aws:iam::123:role/x" ≠ EmptyString
  ∧ ∃ response qs s os o,
      describeStacks_q
        (Sample.world [] []
           [Resolve (Sample.one_stack [Sample.output "Role" "arn:aws:iam::123:role/x"])] [])
      = Resolve response :: qs
      ∧ Stacks response = Some [s] ∧ Outputs s = Some os
      ∧ In o os ∧ OutputKey o = Some "Role"
      ∧ OutputValue o = Some "arn:aws:iam::123:role/x".
Proof.
  apply (getOutputs_has_no_empty_entry "s"
           (Sample.world [] []
              [Resolve (Sample.one_stack [Sample.output "Role" "arn:aws:iam::123:role/x"])] [])
           {[ "Role" := "arn:aws:iam::123:role/x" ]}).
  - vm_compute. reflexivity.
  - vm_compute. reflexivity.
Defined.

(** ** The console text *)

Section TextFacts.

Lemma substring_skip (p s : string) (n : nat) :
  String.substring (String.length p) n (p +:+ s) = String.substring 0 n s.
Proof. induction p as [|c p IH]; simpl; [done | exact IH]. Qed.

Lemma substring_head (a rest : string) :
  String.substring 0 (String.length a) (a +:+ rest) = a.
Proof.
  induction a as [|c a IH]; simpl; [by destruct rest | by rewrite IH].
Qed.

Lemma append_assoc (a b c : string) : (a +:+ b) +:+ c = a +:+ (b +:+ c).
Proof.
  induction a as [|x a IH]; [done |].
  change (String x ((a +:+ b) +:+ c) = String x (a +:+ b +:+ c)). by rewrite IH.
Qed.

End TextFacts.

(** X14: on a date whose ISO string has the usual shape, ten characters of
    date, the letter T, eight characters of time and a rest, [fmtTime]
    returns the eight characters of time, in both versions of the class. *)
Theorem fmtTime_cuts_the_time
    (toISOString : Z → string) (date : Z) (day time rest : string) :
  toISOString date = day +:+ "T" +:+ time +:+ rest →
  String.length day = 10%nat →
  String.length time = 8%nat →
  SdkV3.fmtTime toISOString date = time
  ∧ SdkV2.fmtTime toISOString date = time.
Proof.
  intros Hiso Hday Htime.
  assert (H : String.substring 11 8 (toISOString date) = time).
  { rewrite Hiso.
    rewrite <- (append_assoc day "T" (time +:+ rest)).
    replace 11%nat with (String.length (day +:+ "T"))
      by (rewrite length_append, Hday; reflexivity).
    rewrite substring_skip, <- Htime. apply substring_head. }
  split; exact H.
Qed.

Lemma fmtTime_cuts_the_time_witness :
  SdkV3.fmtTime (λ _, "2020-01-01T16:27:28.000Z") 0 = "16:27:28"
  ∧ SdkV2.fmtTime (λ _, "2020-01-01T16:27:28.000Z") 0 = "16:27:28".
Proof.
  apply (fmtTime_cuts_the_time (λ _, "2020-01-01T16:27:28.000Z") 0
           "2020-01-01" "16:27:28" ".000Z"); reflexivity.
Defined.

(** ** Whole runs of [createOrUpdate] and [delete] *)

Section ChangeFacts.
Import SdkV3.

Lemma createOrUpdate_update_accepted name template params now w q :
  updateStack_q w = Resolve tt :: q →
  createOrUpdate name template params now w
  = match waitFor name "UPDATE_COMPLETE" now (after_update name template params now q w) with
    | (Throw err, w2) => createOrUpdate_catch name template params now err w2
    | r => r
    end.
Proof.
  intros Hq. unfold createOrUpdate, try_catch.
  unfold mbind at 1, M_bind at 1, updateStack, gateway. rewrite Hq.
  unfold mbind at 1, M_bind at 1, emit. done.
Qed.

Lemma createOrUpdate_update_rejected_catch name template params now w err q :
  updateStack_q w = Reject err :: q →
  createOrUpdate name template params now w
  = createOrUpdate_catch name template params now err
      (set_updateStack_q q
         (record [CallUpdateStack (stackInput name template params)] w)).
Proof. intros Hq. by rewrite (createOrUpdate_update_rejected _ _ _ _ _ _ _ Hq). Qed.

Lemma unclassified err :
  Code err ≠ Some "ValidationError" →
  stackDoesNotExist err = false ∧ stackIsUpToDate err = false.
Proof.
  intros H. unfold stackDoesNotExist, stackIsUpToDate.
  by rewrite bool_decide_eq_false_2.
Qed.

Lemma waitFor_grows name success start w :
  ∃ ext, calls (snd (waitFor name success start w)) = calls w ++ ext.
Proof.
  destruct (waitFor_calls (λ _, True) name success start w (replies_ok_True _))
    as (sid & ext & tail & Hc & _).
  by eexists.
Qed.

(** A normal return of [waitFor] follows the print of a stack event with
    the expected status. *)
Lemma waitFor_ret_event name success start w :
  fst (waitFor name success start w) = Ret tt →
  ∃ e, In (CallLogEvent e) (calls_since w (snd (waitFor name success start w)))
       ∧ is_stack_event e = true ∧ event_status e = success.
Proof.
  intros Hret.
  destruct (waitFor_ret_inv name success start w Hret)
    as (sid & w1 & vars & q & ext & Hid & Hloop & Hst & Hc).
  destruct (poll_loop_ret_inv (describeStackEvents_q w1) sid start
              {| shown := ∅; status := EmptyString |} (calls w1))
    as (ext' & Hext' & Hinv).
  rewrite Hloop in Hext', Hinv. simpl in Hext', Hinv.
  apply app_inv_head in Hext'. subst ext'.
  destruct (Hinv vars eq_refl) as [[Hs | (e & Hin & Hs & He)] _].
  - assert (Hfin : finished (status vars) = true) by (by eapply poll_loop_ret).
    rewrite Hs in Hfin. by rewrite finished_initial in Hfin.
  - exists e. split; [| split; [done | congruence]].
    rewrite (calls_since_app _ _ _ Hc). right. apply in_app_iff. by left.
Qed.

Lemma in_calls_since_later w w1 w2 c pre ext :
  calls w1 = calls w ++ pre → calls w2 = calls w1 ++ ext →
  In c (calls_since w1 w2) → In c (calls_since w w2).
Proof.
  intros H1 H2 Hin.
  rewrite (calls_since_app _ _ _ H2) in Hin.
  rewrite (calls_since_app w w2 (pre ++ ext)) by (by rewrite H2, H1, app_assoc).
  apply in_app_iff. by right.
Qed.

Lemma createOrUpdate_catch_unfold name template params now err w :
  createOrUpdate_catch name template params now err w
  = if stackDoesNotExist err then
      match createStack_q w with
      | [] => (Hang, record [CallCreateStack "DELETE" (stackInput name template params)] w)
      | Resolve _ :: qc =>
          waitFor name "CREATE_COMPLETE" now
            (record [CallLogStackAction now "Creating new stack"]
               (set_createStack_q qc
                  (record [CallCreateStack "DELETE" (stackInput name template params)] w)))
      | Reject err' :: qc =>
          (Throw err',
           set_createStack_q qc
             (record [CallCreateStack "DELETE" (stackInput name template params)] w))
      end
    else if stackIsUpToDate err then
      (Ret tt, record [CallLogStackAction now "No updates needed for stack"] w)
    else (Throw err, w).
Proof.
  unfold createOrUpdate_catch.
  destruct (stackDoesNotExist err); [| by destruct (stackIsUpToDate err)].
  unfold mbind, M_bind, createStack, gateway, emit.
  by destruct (createStack_q w) as [|[[] | err'] qc].
Qed.

Lemma createOrUpdate_no_reply name template params now w :
  updateStack_q w = [] →
  createOrUpdate name template params now w
  = (Hang, record [CallUpdateStack (stackInput name template params)] w).
Proof.
  intros Hq. unfold createOrUpdate, try_catch.
  unfold mbind at 1, M_bind at 1, updateStack, gateway. by rewrite Hq.
Qed.

(** A normal return of the [catch] block follows the banner of an
    unchanged stack or the print of a [CREATE_COMPLETE] stack event. *)
Lemma createOrUpdate_catch_ret name template params now err w :
  (∃ ext, calls (snd (createOrUpdate_catch name template params now err w))
          = calls w ++ ext)
  ∧ (fst (createOrUpdate_catch name template params now err w) = Ret tt →
     In (CallLogStackAction now "No updates needed for stack")
       (calls_since w (snd (createOrUpdate_catch name template params now err w)))
     ∨ ∃ e, In (CallLogEvent e)
              (calls_since w (snd (createOrUpdate_catch name template params now err w)))
            ∧ is_stack_event e = true ∧ event_status e = "CREATE_COMPLETE").
Proof.
  rewrite createOrUpdate_catch_unfold.
  destruct (stackDoesNotExist err).
  - destruct (createStack_q w) as [|[[] | err'] qc]; simpl; [split; [by eexists | done] | |
      split; [by eexists | done]].
    set (w1 := record [CallLogStackAction now "Creating new stack"] _).
    assert (H1 : calls w1
                 = calls w ++ [CallCreateStack "DELETE" (stackInput name template params);
                               CallLogStackAction now "Creating new stack"]).
    { subst w1. simpl. by rewrite <- app_assoc. }
    destruct (waitFor_grows name "CREATE_COMPLETE" now w1) as [ext Hext].
    split; [eexists; by rewrite Hext, H1, <- app_assoc |].
    intros Hret. right.
    destruct (waitFor_ret_event _ _ _ _ Hret) as (e & Hin & He).
    exists e. split; [| done]. by eapply in_calls_since_later.
  - destruct (stackIsUpToDate err); simpl.
    + split; [by eexists |]. intros _. left.
      rewrite (calls_since_app w _ [CallLogStackAction now "No updates needed for stack"])
        by done.
      by left.
    + split; [exists []; by rewrite app_nil_r | done].
Qed.

End ChangeFacts.

(** X15: when the update is accepted, [createOrUpdate] prints the banner
    and ends as [waitFor] expecting [UPDATE_COMPLETE] ends, as long as an
    error of that [waitFor] is not a [ValidationError]; so the errors the
    class raises itself (an unexpected final status, a missing stack
    record) reach the caller as they are, and no create request is made. *)
Theorem createOrUpdate_update_accepted_runs_waitFor
    (name template : string) (params : list (string * option string)) (now : Z)
    (w : World) (q : list (Reply unit)) :
  updateStack_q w = Resolve tt :: q →
  (∀ err, fst (SdkV3.waitFor name "UPDATE_COMPLETE" now
                 (after_update name template params now q w)) = Throw err →
          Code err ≠ Some "ValidationError") →
  SdkV3.createOrUpdate name template params now w
  = SdkV3.waitFor name "UPDATE_COMPLETE" now (after_update name template params now q w).
Proof.
  intros Hq Herr. rewrite (createOrUpdate_update_accepted _ _ _ _ _ _ Hq).
  destruct (SdkV3.waitFor _ _ _ _) as [[[] | err |] w2]; [done | | done].
  unfold createOrUpdate_catch.
  destruct (unclassified err (Herr err eq_refl)) as [-> ->]. done.
Qed.

Lemma createOrUpdate_update_accepted_runs_waitFor_witness :
  fst (SdkV3.createOrUpdate "s" "t" [("Env", Some "test2")] 10 Sample.rollback_world)
  = Throw (mkError "Unexpected Stack Status UPDATE_ROLLBACK_COMPLETE").
Proof.
  rewrite (createOrUpdate_update_accepted_runs_waitFor "s" "t" [("Env", Some "test2")] 10
             Sample.rollback_world [] eq_refl).
  - vm_compute. reflexivity.
  - intros err. vm_compute. intros [= <-]. discriminate.
Defined.

(** X16: the [catch] block also sees the errors raised while waiting for
    an accepted update: when the lookup of the stack or a poll is rejected
    with a [ValidationError] whose message contains [does not exist],
    [createOrUpdate] goes on with a create request with [OnFailure] set to
    [DELETE], the banner and [waitFor] expecting [CREATE_COMPLETE]. *)
Theorem createOrUpdate_creates_after_failed_wait
    (name template : string) (params : list (string * option string)) (now : Z)
    (w w2 : World) (q : list (Reply unit)) (err : Error) :
  updateStack_q w = Resolve tt :: q →
  SdkV3.waitFor name "UPDATE_COMPLETE" now (after_update name template params now q w)
  = (Throw err, w2) →
  Code err = Some "ValidationError" →
  occurs_in "does not exist" (message err) →
  SdkV3.createOrUpdate name template params now w
  = (_ ← createStack "DELETE" (SdkV3.stackInput name template params);
     _ ← emit (CallLogStackAction now "Creating new stack");
     SdkV3.waitFor name "CREATE_COMPLETE" now) w2.
Proof.
  intros Hq Hw Hcode Hmsg. rewrite (createOrUpdate_update_accepted _ _ _ _ _ _ Hq), Hw.
  unfold createOrUpdate_catch.
  by rewrite (proj2 (stackDoesNotExist_spec err) (conj Hcode Hmsg)).
Qed.

Lemma createOrUpdate_creates_after_failed_wait_witness :
  calls (snd (SdkV3.createOrUpdate "s" "t" [] 10
                (Sample.world [Resolve tt] [Resolve tt]
                   [Reject (Sample.validation_error "Stack with id s does not exist")] [])))
  = [ CallUpdateStack (SdkV3.stackInput "s" "t" []);
      CallLogStackAction 10 "Updating stack";
      CallDescribeStacks "s";
      CallCreateStack "DELETE" (SdkV3.stackInput "s" "t" []);
      CallLogStackAction 10 "Creating new stack";
      CallDescribeStacks "s" ].
Proof.
  rewrite (createOrUpdate_creates_after_failed_wait "s" "t" [] 10
             (Sample.world [Resolve tt] [Resolve tt]
                [Reject (Sample.validation_error "Stack with id s does not exist")] [])
             (snd (SdkV3.waitFor "s" "UPDATE_COMPLETE" 10
                     (after_update "s" "t" [] 10 []
                        (Sample.world [Resolve tt] [Resolve tt]
                           [Reject (Sample.validation_error
                                      "Stack with id s does not exist")] []))))
             [] (Sample.validation_error "Stack with id s does not exist")
             eq_refl eq_refl eq_refl
             (ex_intro _ "Stack with id s " (ex_intro _ EmptyString eq_refl))).
  vm_compute. reflexivity.
Defined.

(** X17: when the create request that follows a missing stack is rejected,
    [createOrUpdate] throws that error as it is, whatever its code and
    message, without the banner and without waiting. *)
Theorem createOrUpdate_create_rejected
    (name template : string) (params : list (string * option string)) (now : Z)
    (w : World) (err err' : Error) (q qc : list (Reply unit)) :
  updateStack_q w = Reject err :: q →
  SdkV3.stackDoesNotExist err = true →
  createStack_q w = Reject err' :: qc →
  SdkV3.createOrUpdate name template params now w
  = (Throw err',
     set_createStack_q qc
       (record [CallCreateStack "DELETE" (SdkV3.stackInput name template params)]
          (set_updateStack_q q
             (record [CallUpdateStack (SdkV3.stackInput name template params)] w)))).
Proof.
  intros Hq Hd Hc. rewrite (createOrUpdate_update_rejected_catch _ _ _ _ _ _ _ Hq).
  rewrite createOrUpdate_catch_unfold, Hd. simpl. by rewrite Hc.
Qed.

Lemma createOrUpdate_create_rejected_witness :
  fst (SdkV3.createOrUpdate "s" "t" [] 10
         (Sample.world [Reject (Sample.validation_error "Stack [s] does not exist")]
            [Reject (Sample.validation_error "Stack [s] does not exist")] []
            Sample.create_polls))
  = Throw (Sample.validation_error "Stack [s] does not exist").
Proof.
  rewrite (createOrUpdate_create_rejected "s" "t" [] 10
             (Sample.world [Reject (Sample.validation_error "Stack [s] does not exist")]
                [Reject (Sample.validation_error "Stack [s] does not exist")] []
                Sample.create_polls)
             (Sample.validation_error "Stack [s] does not exist")
             (Sample.validation_error "Stack [s] does not exist") [] []
             eq_refl eq_refl eq_refl).
  reflexivity.
Defined.

(** X18: [createOrUpdate] returns normally only after it has printed the
    banner of an unchanged stack, or an event of the stack itself with
    status [UPDATE_COMPLETE] or [CREATE_COMPLETE]. *)
Theorem createOrUpdate_returns_after_completion
    (name template : string) (params : list (string * option string)) (now : Z)
    (w : World) :
  fst (SdkV3.createOrUpdate name template params now w) = Ret tt →
  In (CallLogStackAction now "No updates needed for stack")
    (calls_since w (snd (SdkV3.createOrUpdate name template params now w)))
  ∨ ∃ e, In (CallLogEvent e)
           (calls_since w (snd (SdkV3.createOrUpdate name template params now w)))
         ∧ is_stack_event e = true
         ∧ (event_status e = "UPDATE_COMPLETE" ∨ event_status e = "CREATE_COMPLETE").
Proof.
  destruct (updateStack_q w) as [|[[] | err] q] eqn:Hq.
  - by rewrite (createOrUpdate_no_reply _ _ _ _ _ Hq).
  - rewrite (createOrUpdate_update_accepted _ _ _ _ _ _ Hq).
    set (w1 := after_update name template params now q w).
    assert (H1 : calls w1
                 = calls w ++ [CallUpdateStack (SdkV3.stackInput name template params);
                               CallLogStackAction now "Updating stack"]).
    { subst w1. simpl. by rewrite <- app_assoc. }
    destruct (waitFor_grows name "UPDATE_COMPLETE" now w1) as [ext Hext].
    pose proof (waitFor_ret_event name "UPDATE_COMPLETE" now w1) as Hev.
    destruct (SdkV3.waitFor name "UPDATE_COMPLETE" now w1) as [[[] | err |] w2];
      cbn [fst snd] in Hext, Hev |- *; [| | done].
    + intros _. right. destruct (Hev eq_refl) as (e & Hin & Hs & He).
      exists e. split; [by eapply in_calls_since_later |]. split; [done | by left].
    + destruct (createOrUpdate_catch_ret name template params now err w2)
        as [[ext' Hext'] Hret].
      intros Hr. destruct (Hret Hr) as [Hin | (e & Hin & Hs & He)].
      * left. eapply in_calls_since_later; [| exact Hext' | exact Hin].
        rewrite Hext, H1, <- app_assoc. done.
      * right. exists e. split; [| split; [done | by right]].
        eapply in_calls_since_later; [| exact Hext' | exact Hin].
        rewrite Hext, H1, <- app_assoc. done.
  - rewrite (createOrUpdate_update_rejected_catch _ _ _ _ _ _ _ Hq).
    set (w0 := set_updateStack_q q _).
    destruct (createOrUpdate_catch_ret name template params now err w0)
      as [[ext' Hext'] Hret].
    intros Hr. destruct (Hret Hr) as [Hin | (e & Hin & Hs & He)].
    + left. eapply in_calls_since_later; [| exact Hext' | exact Hin]. done.
    + right. exists e. split; [| split; [done | by right]].
      eapply in_calls_since_later; [| exact Hext' | exact Hin]. done.
Qed.

Lemma createOrUpdate_returns_after_completion_witness :
  In (CallLogStackAction 10 "No updates needed for stack")
    (calls_since Sample.create_world
       (snd (SdkV3.createOrUpdate "s" "t" [] 10 Sample.create_world)))
  ∨ ∃ e, In (CallLogEvent e)
           (calls_since Sample.create_world
              (snd (SdkV3.createOrUpdate "s" "t" [] 10 Sample.create_world)))
         ∧ is_stack_event e = true
         ∧ (event_status e = "UPDATE_COMPLETE" ∨ event_status e = "CREATE_COMPLETE").
Proof.
  apply (createOrUpdate_returns_after_completion "s" "t" [] 10 Sample.create_world).
  vm_compute. reflexivity.
Defined.

Section DeleteFacts.
Import SdkV3.

Lemma delete_unfold name now w :
  delete_ name now w
  = match deleteStack_q w with
    | [] => (Hang, record [CallDeleteStack name] w)
    | Resolve _ :: q =>
        waitFor name "DELETE_COMPLETE" now
          (record [CallLogStackAction now "Deleting stack"]
             (set_deleteStack_q q (record [CallDeleteStack name] w)))
    | Reject err :: q => (Throw err, set_deleteStack_q q (record [CallDeleteStack name] w))
    end.
Proof.
  unfold delete_, mbind, M_bind, deleteStack, gateway, emit.
  by destruct (deleteStack_q w) as [|[[] | err] q].
Qed.

End DeleteFacts.

(** X19: [delete] throws a rejection of the delete request as it is,
    without banner and without waiting; and it returns normally only after
    it has printed an event of the stack itself with status
    [DELETE_COMPLETE]. *)
Theorem delete_returns_after_delete_complete (name : string) (now : Z) (w : World) :
  (∀ err q, deleteStack_q w = Reject err :: q →
     SdkV3.delete_ name now w
     = (Throw err, set_deleteStack_q q (record [CallDeleteStack name] w)))
  ∧ (fst (SdkV3.delete_ name now w) = Ret tt →
     ∃ e, In (CallLogEvent e) (calls_since w (snd (SdkV3.delete_ name now w)))
          ∧ is_stack_event e = true ∧ event_status e = "DELETE_COMPLETE").
Proof.
  rewrite delete_unfold. split.
  - by intros err q ->.
  - destruct (deleteStack_q w) as [|[[] | err] q]; [done | | done].
    set (w1 := record [CallLogStackAction now "Deleting stack"] _).
    intros Hret. destruct (waitFor_ret_event _ _ _ _ Hret) as (e & Hin & He).
    destruct (waitFor_grows name "DELETE_COMPLETE" now w1) as [ext Hext].
    exists e. split; [| done].
    eapply (in_calls_since_later w w1 _ _
              [CallDeleteStack name; CallLogStackAction now "Deleting stack"]);
      [| exact Hext | exact Hin].
    subst w1. simpl. by rewrite <- app_assoc.
Qed.

Lemma delete_returns_after_delete_complete_witness :
  ∃ e, In (CallLogEvent e)
         (calls_since Sample.delete_world (snd (SdkV3.delete_ "s" 10 Sample.delete_world)))
       ∧ is_stack_event e = true ∧ event_status e = "DELETE_COMPLETE".
Proof.
  apply (delete_returns_after_delete_complete "s" 10 Sample.delete_world).
  vm_compute. reflexivity.
Defined.

(** X20: the request [createOrUpdate] builds keeps every entry of the
    parameter mapping, one parameter per entry in the same order with its
    key and value, and marks a parameter to keep its previous value exactly
    when its value is undefined; the stack name and the template are the
    given ones and the capabilities are always the two IAM ones. *)
Theorem stackInput_keeps_every_parameter
    (name template : string) (params : list (string * option string)) :
  map (λ p, (ParameterKey p, ParameterValue p))
      (InputParameters (SdkV3.stackInput name template params)) = params
  ∧ Forall (λ p, UsePreviousValue p = true ↔ ParameterValue p = None)
      (InputParameters (SdkV3.stackInput name template params))
  ∧ StackName (SdkV3.stackInput name template params) = name
  ∧ TemplateBody (SdkV3.stackInput name template params) = template
  ∧ Capabilities (SdkV3.stackInput name template params)
    = ["CAPABILITY_IAM"; "CAPABILITY_NAMED_IAM"].
Proof.
  split; [| split; [| done]].
  - simpl. induction params as [|[k v] params IH]; simpl; [done | by rewrite IH].
  - simpl. induction params as [|[k v] params IH]; simpl; constructor; [| done].
    simpl. apply bool_decide_eq_true.
Qed.

(** ** Which statuses stop the loop *)

Section StatusFacts.

Lemma last_char_app (a b : string) :
  b ≠ EmptyString → last_char (a +:+ b) = last_char b.
Proof.
  intros Hb. induction a as [|c a IH]; [done |].
  change (last_char (String c (a +:+ b)) = last_char b).
  destruct (a +:+ b) eqn:E; [| done].
  destruct a; [| done]. done.
Qed.

End StatusFacts.

(** X21: a status stops the loop only if its last character is [E] or [D]
    (it ends with [COMPLETE] or [FAILED]); so no status that ends with
    [_IN_PROGRESS] ever stops it. *)
Theorem in_progress_never_finishes (status before : string) :
  (SdkV3.finished status = true →
   last_char status = Some "E"%char ∨ last_char status = Some "D"%char)
  ∧ SdkV3.finished (before +:+ "_IN_PROGRESS") = false.
Proof.
  assert (H : ∀ s, SdkV3.finished s = true →
                   last_char s = Some "E"%char ∨ last_char s = Some "D"%char).
  { intros s Hf. apply match_alts_at_end_spec in Hf as (alt & b & Hin & ->).
    simpl in Hin.
    destruct Hin as [<- | [<- | [<- | [<- | [<- | [<- | [<- | []]]]]]]];
      rewrite last_char_app by done; simpl; auto. }
  split; [apply H |].
  destruct (SdkV3.finished (before +:+ "_IN_PROGRESS")) eqn:Hf; [| done].
  apply H in Hf. rewrite last_char_app in Hf by done.
  simpl in Hf. by destruct Hf.
Qed.

Lemma in_progress_never_finishes_witness :
  last_char "UPDATE_ROLLBACK_FAILED" = Some "E"%char
  ∨ last_char "UPDATE_ROLLBACK_FAILED" = Some "D"%char.
Proof.
  apply (in_progress_never_finishes "UPDATE_ROLLBACK_FAILED" EmptyString).
  reflexivity.
Defined.

(** ** The SDK v2 class, continued *)

Section MoreVersions.

Lemma waitFor_agree name success start w :
  SdkV2.waitFor name success start w = SdkV3.waitFor name success start w.
Proof.
  unfold SdkV2.waitFor, SdkV3.waitFor, mbind, M_bind.
  change (SdkV2.getStackId name w) with (SdkV3.getStackId name w).
  destruct (SdkV3.getStackId name w) as [[sid | e |] w1]; [| done | done].
  unfold SdkV2.while_not_finished, SdkV3.while_not_finished.
  by rewrite poll_loop_agree.
Qed.

End MoreVersions.

(** X22: on the same gateway replies, with the classification code of the
    SDK v2 error read where the SDK v3 error has its own, [createOrUpdate]
    and [delete] of the two versions of the class make the same calls and
    end in the same way. *)
Theorem sdk_versions_agree_on_changes
    (name template : string) (params : list (string * option string)) (now : Z)
    (w : World) :
  SdkV2.createOrUpdate name template params now w
  = SdkV3.createOrUpdate name template params now w
  ∧ SdkV2.delete_ name now w = SdkV3.delete_ name now w.
Proof.
  split.
  - unfold SdkV2.createOrUpdate, SdkV3.createOrUpdate, try_catch.
    change (SdkV2.stackInput name template params)
      with (SdkV3.stackInput name template params).
    unfold mbind, M_bind, updateStack, gateway, emit.
    destruct (updateStack_q w) as [|[[] | err] q]; [done | |].
    + rewrite waitFor_agree.
      destruct (SdkV3.waitFor _ _ _ _) as [[[] | err |] w2]; [done | | done].
      change (SdkV2.doesNotExist err) with (SdkV3.stackDoesNotExist err).
      change (SdkV2.isUpToDate err) with (SdkV3.stackIsUpToDate err).
      destruct (SdkV3.stackDoesNotExist err); [| done].
      unfold createStack, gateway.
      destruct (createStack_q w2) as [|[[] | err'] qc]; [done | | done].
      apply waitFor_agree.
    + change (SdkV2.doesNotExist err) with (SdkV3.stackDoesNotExist err).
      change (SdkV2.isUpToDate err) with (SdkV3.stackIsUpToDate err).
      destruct (SdkV3.stackDoesNotExist err); [| done].
      unfold createStack, gateway. simpl.
      destruct (createStack_q w) as [|[[] | err'] qc]; [done | | done].
      apply waitFor_agree.
  - unfold SdkV2.delete_, SdkV3.delete_, mbind, M_bind, deleteStack, gateway, emit.
    destruct (deleteStack_q w) as [|[[] | err] q]; [done | | done].
    apply waitFor_agree.
Qed.

(** X23: [getCredentials] of the SDK v2 class takes the credentials from the
    environment exactly when both access-key variables are set and not
    empty, also for the user [ec2-user]; it changes the environment only
    when it falls back to the shared ini file, and then only by setting
    [AWS_SDK_LOAD_CONFIG] to [true]. *)
Theorem getCredentials_choice (profile : option string) (env : gmap string string) :
  (fst (SdkV2.getCredentials profile env) = SdkV2.EnvironmentCredentials "AWS"
   ↔ ∃ key secret,
       env !! "AWS_ACCESS_KEY_ID" = Some key ∧ key ≠ EmptyString
       ∧ env !! "AWS_SECRET_ACCESS_KEY" = Some secret ∧ secret ≠ EmptyString)
  ∧ (snd (SdkV2.getCredentials profile env) = env
     ∨ fst (SdkV2.getCredentials profile env) = SdkV2.SharedIniFileCredentials profile
       ∧ snd (SdkV2.getCredentials profile env) = <["AWS_SDK_LOAD_CONFIG" := "true"]> env)
  ∧ (fst (SdkV2.getCredentials profile env) = SdkV2.EC2MetadataCredentials →
     env !! "USER" = Some "ec2-user").
Proof.
  assert (Htruthy : ∀ x, Js.truthy x = true ↔ ∃ v, x = Some v ∧ v ≠ EmptyString).
  { intros [v|]; simpl.
    - destruct (String.eqb_spec v EmptyString) as [-> | Hv]; simpl.
      + split; [done | by intros (? & [= <-] & ?)].
      + split; [by exists v | done].
    - split; [done | by intros (? & ? & _)]. }
  assert (Hboth : Js.truthy (env !! "AWS_ACCESS_KEY_ID")
                  && Js.truthy (env !! "AWS_SECRET_ACCESS_KEY") = true
                  ↔ ∃ key secret,
                      env !! "AWS_ACCESS_KEY_ID" = Some key ∧ key ≠ EmptyString
                      ∧ env !! "AWS_SECRET_ACCESS_KEY" = Some secret
                      ∧ secret ≠ EmptyString).
  { rewrite andb_true_iff, !Htruthy. split.
    - intros [(key & ? & ?) (secret & ? & ?)]. by exists key, secret.
    - intros (key & secret & ? & ? & ? & ?). split; by eexists. }
  unfold SdkV2.getCredentials.
  destruct (Js.truthy (env !! "AWS_ACCESS_KEY_ID")
            && Js.truthy (env !! "AWS_SECRET_ACCESS_KEY")) eqn:E.
  - simpl. split; [split; [intros _; by apply Hboth | done] |].
    split; [by left | done].
  - assert (Hno : ¬ ∃ key secret,
                      env !! "AWS_ACCESS_KEY_ID" = Some key ∧ key ≠ EmptyString
                      ∧ env !! "AWS_SECRET_ACCESS_KEY" = Some secret
                      ∧ secret ≠ EmptyString).
    { intros H. apply Hboth in H. congruence. }
    destruct (bool_decide (env !! "USER" = Some "ec2-user")) eqn:Hu; simpl.
    + split; [split; [done | by intros H; destruct Hno] |].
      split; [by left |]. intros _. by apply bool_decide_eq_true in Hu.
    + split; [split; [done | by intros H; destruct Hno] |].
      split; [by right | done].
Qed.
